(** * typed-storage: a shallow embedding of [TypedStorage] and [LiveStorage]

    The development follows the two classes of the package:

    - [TypedStorage] (src/TypedStorage.ts): a typed facade over a browser
      [Storage], with per-key [serialize]/[deserialize] overrides and a
      best-effort default conversion between values and stored text;
    - [LiveStorage]: the subclass that tracks the keys it wrote in a [Set]
      and publishes every change through an event emitter, from a microtask.

    What the classes call but do not define is kept apart from them:
    the ECMAScript built-ins ([JSON.parse], [JSON.stringify], [Number],
    [Number.prototype.toString], [BigInt]) are the fields of the class
    [JsRuntime], so that the statements about the two classes hold for every
    runtime; the instance [ecma] implements the built-ins after ECMA-262 and
    is what the concrete examples are evaluated with.  The browser [Storage]
    and the event emitter are modelled after their contracts.

    A method is a computation on a [World]: the storage area, the emitter,
    the set of keys, the microtask queue, the console, and the record of the
    calls made to subscribers.  A subscriber's callback is client code; it is
    taken to observe what it is passed, not to call the store back. *)

From Stdlib Require Import ZArith String Ascii List Bool Lia DecimalString.
From Stdlib Require Import Floats.SpecFloat.
From stdpp Require Import base option gmap strings list.
Import ListNotations.

Set Warnings "-register-all".
Local Open Scope string_scope.
Local Open Scope list_scope.

(** ** JavaScript values *)

(** A Number is an IEEE 754 binary64 datum; [spec_float] is the Standard
    Library's specification of those, instantiated below at precision 53 and
    [emax] 1024. *)
Abbreviation JsNumber := spec_float.

Definition prec64 : Z := 53.
Definition emax64 : Z := 1024.

(** Strings are sequences of code units below 256 (Latin-1 text).  Objects
    are plain records: their own enumerable properties, in enumeration
    order.  Functions and symbols only matter through [typeof] and
    [toString], so they carry the text those produce. *)
Inductive JsValue : Type :=
  | JUndefined
  | JNull
  | JBoolean (b : bool)
  | JNumber (x : JsNumber)
  | JBigInt (z : Z)
  | JString (s : string)
  | JSymbol (description : string)
  | JFunction (source : string)
  | JArray (elements : list JsValue)
  | JObject (properties : list (string * JsValue)).

(** The integer [z] as a Number (exact below 2^53, rounded above). *)
Definition number_of_Z (z : Z) : JsNumber :=
  binary_normalize prec64 emax64 z 0 false.

(** [typeof value] *)
Definition typeof (value : JsValue) : string :=
  match value with
  | JUndefined => "undefined"
  | JNull => "object"
  | JBoolean _ => "boolean"
  | JNumber _ => "number"
  | JBigInt _ => "bigint"
  | JString _ => "string"
  | JSymbol _ => "symbol"
  | JFunction _ => "function"
  | JArray _ => "object"
  | JObject _ => "object"
  end.

(** ** Exceptions and completions *)

Inductive JsError : Type :=
  | Error (message : string)          (* new Error(message) *)
  | SyntaxError (message : string)
  | TypeError (message : string)
  | DOMException (name : string).     (* raised by the browser Storage *)

(** What [toStorageString] throws. *)
Definition UnsupportedType : JsError := Error "Unsupported storage type".
(** What [Storage.setItem] throws when the value cannot be stored. *)
Definition QuotaExceededError : JsError := DOMException "QuotaExceededError".

(** The outcome of evaluating an expression: a value, or a thrown error. *)
Inductive Completion (A : Type) : Type :=
  | Normal (a : A)
  | Throw (e : JsError).
Arguments Normal {A} a.
Arguments Throw {A} e.

Definition is_normal {A} (c : Completion A) : bool :=
  match c with Normal _ => true | Throw _ => false end.

#[export] Instance Completion_fmap : FMap Completion := fun A B f c =>
  match c with
  | Normal a => Normal (f a)
  | Throw e => Throw e
  end.

(** ** The built-ins the classes call *)

Definition starts_structured (text : string) : bool :=
  String.prefix "{" text || String.prefix "[" text.

Definition is_structure (value : JsValue) : bool :=
  match value with
  | JArray _ | JObject _ => true
  | _ => false
  end.

(** [JSON_stringify] yields [None] where [JSON.stringify] returns
    [undefined].  The one law is the shape of the text of an array or a plain
    object (ECMA-262, SerializeJSONArray and SerializeJSONObject).  A
    [JArray] or [JObject] stands for a plain array or object: a [Date], or
    an object with a callable [toJSON], whose text [JSON.stringify] takes
    from that method, is not among the values of this model, and the law is
    not meant of it. *)
Class JsRuntime : Type := {
  JSON_parse : string -> Completion JsValue;
  JSON_stringify : JsValue -> Completion (option string);
  Number_of_string : string -> JsNumber;
  Number_toString : JsNumber -> string;
  BigInt_of_string : string -> Completion Z;
  JSON_stringify_structure :
    forall value text,
      is_structure value = true ->
      JSON_stringify value = Normal (Some text) ->
      starts_structured text = true
}.

(** ** The browser [Storage] *)

(** Modelled from the spec: the Persistent Store is an external
    collaborator with synchronous [getItem], [setItem] (which may fail with a
    quota or permission error), [removeItem] and [clear], keyed by plain
    strings.  [accepts] is the browser's decision on a write, given what is
    stored already. *)
Record Storage : Type := {
  items : gmap string string;
  accepts : gmap string string -> string -> string -> bool
}.

Definition Storage_getItem (st : Storage) (key : string) : option string :=
  items st !! key.

Definition Storage_setItem (st : Storage) (key value : string)
  : Completion Storage :=
  if accepts st (items st) key value
  then Normal {| items := <[key := value]> (items st); accepts := accepts st |}
  else Throw QuotaExceededError.

Definition Storage_removeItem (st : Storage) (key : string) : Storage :=
  {| items := delete key (items st); accepts := accepts st |}.

Definition Storage_clear (st : Storage) : Storage :=
  {| items := ∅; accepts := accepts st |}.

(** A value handed to [Storage.setItem] is converted to a DOMString:
    [undefined] becomes the text "undefined". *)
Definition DOMString (serialized : option string) : string :=
  match serialized with
  | Some text => text
  | None => "undefined"
  end.

(** ** A JavaScript [Set] of strings, in insertion order *)

Definition Set_has (set : list string) (x : string) : bool :=
  bool_decide (x ∈ set).

Definition Set_add (set : list string) (x : string) : list string :=
  if Set_has set x then set else set ++ [x].

Definition Set_delete (set : list string) (x : string) : list string :=
  filter (fun y => y ≠ x) set.

Definition Set_clear (set : list string) : list string := [].

(** ** The event emitter *)

(** A subscriber's callback is client code; it is named by a tag, and
    calling it is recorded as a [Delivery]. *)
Definition Callback : Type := string.

Record Delivery : Type := {
  receiver : Callback;
  payload : JsValue
}.

(** Modelled from the spec: the publish/subscribe registry is an external
    collaborator with [on(topic, callback)] returning an identifier,
    [off(topic, identifier)] removing exactly that registration (a no-op for
    an unknown identifier), and [emit(topic, value)] calling the topic's
    callbacks synchronously in registration order.  Identifiers are drawn
    from a counter. *)
Record EventEmitter : Type := {
  listeners : gmap string (list (string * Callback));
  nextID : N
}.

Definition listeners_of (em : EventEmitter) (topic : string)
  : list (string * Callback) :=
  default [] (listeners em !! topic).

Definition identifier (n : N) : string :=
  NilZero.string_of_uint (N.to_uint n).

Definition Emitter_on (em : EventEmitter) (topic : string) (cb : Callback)
  : string * EventEmitter :=
  let id := identifier (nextID em) in
  (id, {| listeners := <[topic := listeners_of em topic ++ [(id, cb)]]> (listeners em);
          nextID := N.succ (nextID em) |}).

Definition Emitter_off (em : EventEmitter) (topic id : string) : EventEmitter :=
  {| listeners :=
       <[topic := filter (fun l => l.1 ≠ id) (listeners_of em topic)]> (listeners em);
     nextID := nextID em |}.

(** The calls [emit(topic, value)] makes. *)
Definition Emitter_emit (em : EventEmitter) (topic : string) (value : JsValue)
  : list Delivery :=
  map (fun l => {| receiver := l.2; payload := value |}) (listeners_of em topic).

(** ** Microtasks *)

(** The three closures [LiveStorage] hands to [afterCallStack]:
    [() => this.Emitter.emit(key, value)] in [setItem], the same with [null]
    in [removeItem], and the loop over [this.effectedKeys] in [clear]. *)
Inductive Job : Type :=
  | EmitJob (key : string) (value : JsValue)
  | ClearJob.

(** ** The state of the program *)

Record World : Type := {
  storage : Storage;               (* this.storage *)
  Emitter : EventEmitter;          (* this.Emitter *)
  effectedKeys : list string;      (* this.effectedKeys *)
  microtasks : list Job;           (* the runtime's microtask queue *)
  console : list string;           (* what console.warn printed *)
  deliveries : list Delivery       (* the calls made to subscribers *)
}.

Definition set_storage (st : Storage) (w : World) : World :=
  {| storage := st; Emitter := Emitter w; effectedKeys := effectedKeys w;
     microtasks := microtasks w; console := console w;
     deliveries := deliveries w |}.

Definition set_Emitter (em : EventEmitter) (w : World) : World :=
  {| storage := storage w; Emitter := em; effectedKeys := effectedKeys w;
     microtasks := microtasks w; console := console w;
     deliveries := deliveries w |}.

Definition set_effectedKeys (keys : list string) (w : World) : World :=
  {| storage := storage w; Emitter := Emitter w; effectedKeys := keys;
     microtasks := microtasks w; console := console w;
     deliveries := deliveries w |}.

Definition set_microtasks (queue : list Job) (w : World) : World :=
  {| storage := storage w; Emitter := Emitter w; effectedKeys := effectedKeys w;
     microtasks := queue; console := console w;
     deliveries := deliveries w |}.

Definition set_console (lines : list string) (w : World) : World :=
  {| storage := storage w; Emitter := Emitter w; effectedKeys := effectedKeys w;
     microtasks := microtasks w; console := lines;
     deliveries := deliveries w |}.

Definition set_deliveries (calls : list Delivery) (w : World) : World :=
  {| storage := storage w; Emitter := Emitter w; effectedKeys := effectedKeys w;
     microtasks := microtasks w; console := console w;
     deliveries := calls |}.

(** ** Computations: state and exceptions *)

(** A statement runs in a world and completes normally or abruptly; what it
    did before throwing stays done. *)
Definition M (A : Type) : Type := World -> Completion A * World.

#[export] Instance M_ret : MRet M := fun A a w => (Normal a, w).

#[export] Instance M_bind : MBind M := fun A B f m w =>
  match m w with
  | (Normal a, w') => f a w'
  | (Throw e, w') => (Throw e, w')
  end.

Definition throw {A} (e : JsError) : M A := fun w => (Throw e, w).

Definition lift {A} (c : Completion A) : M A := fun w => (c, w).

Definition try_catch {A} (body : M A) (handler : JsError -> M A) : M A :=
  fun w =>
    match body w with
    | (Normal a, w') => (Normal a, w')
    | (Throw e, w') => handler e w'
    end.

Definition update (f : World -> World) : M unit := fun w => (Normal tt, f w).

Definition console_warn (message : string) : M unit :=
  update (fun w => set_console (console w ++ [message]) w).

Definition outcome {A} (r : Completion A * World) : Completion A := r.1.
Definition after {A} (r : Completion A * World) : World := r.2.

Definition storage_getItem (key : string) : M (option string) :=
  fun w => (Normal (Storage_getItem (storage w) key), w).

Definition storage_setItem (key value : string) : M unit :=
  fun w =>
    match Storage_setItem (storage w) key value with
    | Normal st => (Normal tt, set_storage st w)
    | Throw e => (Throw e, w)
    end.

Definition storage_removeItem (key : string) : M unit :=
  update (fun w => set_storage (Storage_removeItem (storage w) key) w).

Definition storage_clear : M unit :=
  update (fun w => set_storage (Storage_clear (storage w)) w).

(** ** [Serialization] (types.ts) *)

(** The optional [serialize] and [deserialize] of one key.  They are client
    functions from and to text, and may throw. *)
Record Serializer : Type := {
  serialize : option (JsValue -> Completion string);
  deserialize : option (string -> Completion JsValue)
}.

(** [Partial<Serialization<T>>]: the keys that have an entry. *)
Abbreviation Serialization := (gmap string Serializer).

(** ** Methods of the built-in prototypes used by [toStorageString] *)

Definition String_includes (text search : string) : bool :=
  match index 0 search text with
  | Some _ => true
  | None => false
  end.

Definition String_startsWith (text search : string) : bool :=
  String.prefix search text.

Definition String_toString (text : string) : string := text.

Definition BigInt_toString (z : Z) : string :=
  NilZero.string_of_int (Z.to_int z).

Definition join (separator : string) (parts : list string) : string :=
  match parts with
  | [] => ""
  | first :: rest => fold_left (fun acc part => acc +:+ separator +:+ part) rest first
  end.

Fixpoint sequence {A} (cs : list (Completion A)) : Completion (list A) :=
  match cs with
  | [] => Normal []
  | Normal a :: rest =>
    match sequence rest with
    | Normal l => Normal (a :: l)
    | Throw e => Throw e
    end
  | Throw e :: _ => Throw e
  end.

Section Prototypes.
Context `{rt : JsRuntime}.

(** The abstract operation ToString (ECMA-262, 7.1.17) on the values of
    this model; an array goes through [Array.prototype.join]. *)
Fixpoint ToString (value : JsValue) : Completion string :=
  match value with
  | JUndefined => Normal "undefined"
  | JNull => Normal "null"
  | JBoolean b => Normal (if b then "true" else "false")
  | JNumber x => Normal (Number_toString x)
  | JBigInt z => Normal (BigInt_toString z)
  | JString s => Normal s
  | JSymbol _ => Throw (TypeError "Cannot convert a Symbol value to a string")
  | JFunction source => Normal source
  | JArray elements =>
    match sequence (map (fun element =>
                           match element with
                           | JUndefined | JNull => Normal ""
                           | _ => ToString element
                           end) elements) with
    | Normal parts => Normal (join "," parts)
    | Throw e => Throw e
    end
  | JObject _ => Normal "[object Object]"
  end.

(** [value?.toString], when it is a function, applied to [value]: [None]
    for [undefined] and [null], which have no properties. *)
Definition toString_method (value : JsValue) : option (Completion string) :=
  match value with
  | JUndefined | JNull => None
  | JSymbol description => Some (Normal ("Symbol(" +:+ description +:+ ")"))
  | _ => Some (ToString value)
  end.
End Prototypes.

(** ** [TypedStorage] (src/TypedStorage.ts) *)

Module TypedStorage.
Section Class.
Context `{rt : JsRuntime}.
Variable serialization : Serialization.

(** [private static numerics] *)
Definition numerics : list string :=
  ["0"; "1"; "2"; "3"; "4"; "5"; "6"; "7"; "8"; "9"; "."; "-"].

(** The loop [for (const char of value)] of [parse]: [false] when it
    returns early at a character outside [numerics], [true] when it runs
    to the end. *)
Fixpoint scan (value : string) : bool :=
  match value with
  | EmptyString => true
  | String char rest =>
    if negb (Set_has numerics (String char EmptyString)) then false
    else scan rest
  end.

Definition parse (_key value : string) : M JsValue :=
  if String_startsWith value "{" || String_startsWith value "[" then
    try_catch
      (lift (JSON_parse value))
      (fun error =>
         console_warn
           "TypedStorage: Attempt to run parse object failed. Returning the value as string";;
         mret (JString value))
  else if negb (scan value) then mret (JString value)
  else
    let number := Number_of_string value in
    if String_includes (String_toString (Number_toString number)) "e" then
      z ← lift (BigInt_of_string value); mret (JBigInt z)
    else mret (JNumber number).

Definition toStorageString (value : JsValue) : Completion (option string) :=
  match value with
  | JString text => Normal (Some text)
  | _ =>
    if String.eqb (typeof value) "object" then JSON_stringify value
    else
      match toString_method value with
      | Some (Normal text) => Normal (Some text)
      | Some (Throw e) => Throw e
      | None => Throw UnsupportedType
      end
  end.

Definition setItem (key : string) (value : JsValue) : M unit :=
  serialized ←
    lift match serialization !! key ≫= serialize with
         | Some serializer => Some <$> serializer value
         | None => toStorageString value
         end;
  storage_setItem key (DOMString serialized).

Definition getItem (key : string) : M JsValue :=
  value ← storage_getItem key;
  match value with
  | None => mret JNull
  | Some value =>
    match serialization !! key ≫= deserialize with
    | Some deserializer => lift (deserializer value)
    | None => parse key value
    end
  end.

Definition removeItem (key : string) : M unit :=
  storage_removeItem key.
End Class.
End TypedStorage.

(** ** [LiveStorage] *)

Module LiveStorage.
Section Class.
Context `{rt : JsRuntime}.
Variable serialization : Serialization.

(** [this.Emitter.emit(key, value)]: the subscribers of [key] are called
    in registration order. *)
Definition emit (key : string) (value : JsValue) : M unit :=
  update (fun w =>
    set_deliveries (deliveries w ++ Emitter_emit (Emitter w) key value) w).

(** [void Promise.resolve().then(() => { callback(); })]: the promise is
    already resolved, so the reaction is put at the back of the microtask
    queue at once, and runs after the current synchronous code. *)
Definition afterCallStack (callback : Job) : M unit :=
  update (fun w => set_microtasks (microtasks w ++ [callback]) w).

Definition setItem (key : string) (value : JsValue) : M unit :=
  afterCallStack (EmitJob key value);;
  update (fun w => set_effectedKeys (Set_add (effectedKeys w) key) w);;
  TypedStorage.setItem serialization key value.

Definition getItem (key : string) : M JsValue :=
  TypedStorage.getItem serialization key.

Definition removeItem (key : string) : M unit :=
  afterCallStack (EmitJob key JNull);;
  update (fun w => set_effectedKeys (Set_delete (effectedKeys w) key) w);;
  TypedStorage.removeItem key.

Definition clear : M unit :=
  afterCallStack ClearJob;;
  update (fun w => set_effectedKeys (Set_clear (effectedKeys w)) w);;
  storage_clear.

Definition on (key : string) (callback : Callback) : M string :=
  fun w =>
    let (id, em) := Emitter_on (Emitter w) key callback in
    (Normal id, set_Emitter em w).

Definition off (key listener : string) : M unit :=
  update (fun w => set_Emitter (Emitter_off (Emitter w) key listener) w).

(** The body of the loop [for (const key of this.effectedKeys)] in the
    callback of [clear]. *)
Fixpoint for_of (keys : list string) (body : string -> M unit) : M unit :=
  match keys with
  | [] => mret tt
  | key :: rest => body key;; for_of rest body
  end.

(** Running one queued callback.  The loop of [clear] reads
    [this.effectedKeys] when it runs. *)
Definition run_job (job : Job) : M unit :=
  match job with
  | EmitJob key value => emit key value
  | ClearJob => fun w => for_of (effectedKeys w) (fun key => emit key JNull) w
  end.

Fixpoint run_jobs (queue : list Job) (w : World) : World :=
  match queue with
  | [] => w
  | job :: rest => run_jobs rest (after (run_job job w))
  end.

(** The microtask checkpoint at the end of the synchronous code: the
    queued callbacks run first in, first out. *)
Definition run_microtasks (w : World) : World :=
  run_jobs (microtasks w) (set_microtasks [] w).
End Class.
End LiveStorage.

(** ** Synchronous client code *)

(** A call on a [LiveStorage]. *)
Inductive Call : Type :=
  | SetItem (key : string) (value : JsValue)
  | GetItem (key : string)
  | RemoveItem (key : string)
  | Clear
  | On (key : string) (callback : Callback)
  | Off (key listener : string).

Definition is_SetItem (call : Call) : bool :=
  match call with SetItem _ _ => true | _ => false end.

Section Client.
Context `{rt : JsRuntime}.
Variable serialization : Serialization.

Definition perform (call : Call) : M unit :=
  match call with
  | SetItem key value => LiveStorage.setItem serialization key value
  | GetItem key => LiveStorage.getItem serialization key;; mret tt
  | RemoveItem key => LiveStorage.removeItem key
  | Clear => LiveStorage.clear
  | On key callback => LiveStorage.on key callback;; mret tt
  | Off key listener => LiveStorage.off key listener
  end.

(** A run of calls made one after the other by synchronous code that goes
    on after a call that throws (the run that stops at the first throw is
    the run of the calls made until then). *)
Fixpoint run_calls (calls : list Call) (w : World) : World :=
  match calls with
  | [] => w
  | call :: rest => run_calls rest (after (perform call w))
  end.

(** One turn: the synchronous calls, then the microtasks. *)
Definition turn (calls : list Call) (w : World) : World :=
  LiveStorage.run_microtasks (run_calls calls w).
End Client.

(** ** The reference runtime: the built-ins after ECMA-262 *)

Module Ecma.

Local Open Scope Z_scope.

(** *** Characters *)

Definition code (c : ascii) : Z := Z.of_N (N_of_ascii c).

(** The value of [c] as a digit of the given radix, if it is one. *)
Definition digit_of (radix : Z) (c : ascii) : option Z :=
  let n := code c in
  let d := if (48 <=? n) && (n <=? 57) then n - 48
           else if (97 <=? n) && (n <=? 102) then n - 87
           else if (65 <=? n) && (n <=? 70) then n - 55
           else radix in
  if d <? radix then Some d else None.

(** StrWhiteSpaceChar, below 256: TAB, LF, VT, FF, CR, SP, NBSP. *)
Definition is_whitespace (c : ascii) : bool :=
  let n := code c in
  ((9 <=? n) && (n <=? 13)) || (n =? 32) || (n =? 160).

Fixpoint trim_start (cs : list ascii) : list ascii :=
  match cs with
  | c :: rest => if is_whitespace c then trim_start rest else cs
  | [] => []
  end.

(** TrimString(str, start+end) *)
Definition trim (cs : list ascii) : list ascii :=
  rev (trim_start (rev (trim_start cs))).

(** The longest prefix of digits of the radix, and what follows it. *)
Fixpoint span_digits (radix : Z) (cs : list ascii) : list Z * list ascii :=
  match cs with
  | c :: rest =>
    match digit_of radix c with
    | Some d => let (ds, tail) := span_digits radix rest in (d :: ds, tail)
    | None => ([], cs)
    end
  | [] => ([], [])
  end.

(** The mathematical value of a digit sequence. *)
Definition digits_value (radix : Z) (ds : list Z) : Z :=
  fold_left (fun acc d => acc * radix + d) ds 0.

Definition chars (s : string) : list ascii := list_ascii_of_string s.
Definition text (cs : list ascii) : string := string_of_list_ascii cs.

Definition decimal (z : Z) : string := NilZero.string_of_int (Z.to_int z).

(** *** Numbers *)

(** The Number value of [digits * 10^exp10] (with the sign [neg]):
    rounded to the nearest binary64, ties to even, whatever the number of
    digits (ECMA-262 lets an implementation stop at the twentieth; the
    engines round correctly). *)
Definition decimal_to_number (neg : bool) (digits exp10 : Z) : JsNumber :=
  match digits with
  | Zpos p =>
    if 0 <=? exp10
    then binary_normalize prec64 emax64
           (if neg then - (digits * 10 ^ exp10) else digits * 10 ^ exp10) 0 neg
    else SFdiv prec64 emax64
           (S754_finite neg p 0)
           (S754_finite false (Z.to_pos (10 ^ (- exp10))) 0)
  | _ => S754_zero neg
  end.

(** An optional sign: [-] is 45 and [+] is 43. *)
Definition read_sign (cs : list ascii) : bool * list ascii :=
  match cs with
  | c :: rest =>
    if code c =? 45 then (true, rest)
    else if code c =? 43 then (false, rest)
    else (false, cs)
  | [] => (false, [])
  end.

(** ExponentPart, or nothing; [None] when what is left is neither. *)
Definition read_exponent (cs : list ascii) : option Z :=
  match cs with
  | [] => Some 0
  | c :: rest =>
    if (code c =? 101) || (code c =? 69) then
      let (neg, rest) := read_sign rest in
      match span_digits 10 rest with
      | (d :: ds, []) =>
        let e := digits_value 10 (d :: ds) in Some (if neg then - e else e)
      | _ => None
      end
    else None
  end.

(** StrUnsignedDecimalLiteral other than [Infinity]: the digits and the
    power of ten. *)
Definition read_unsigned_decimal (cs : list ascii) : option (Z * Z) :=
  let (int_part, rest) := span_digits 10 cs in
  let '(frac_part, rest) :=
    match rest with
    | c :: rest' => if code c =? 46 then span_digits 10 rest' else ([], rest)
    | [] => ([], rest)
    end in
  match int_part ++ frac_part with
  | [] => None
  | ds =>
    match read_exponent rest with
    | Some e => Some (digits_value 10 ds, e - Z.of_nat (length frac_part))
    | None => None
    end
  end.

(** NonDecimalIntegerLiteral: [0x], [0o], [0b] and their digits. *)
Definition read_non_decimal (cs : list ascii) : option Z :=
  match cs with
  | "0"%char :: p :: rest =>
    let radix := if (code p =? 120) || (code p =? 88) then 16
                 else if (code p =? 111) || (code p =? 79) then 8
                 else if (code p =? 98) || (code p =? 66) then 2
                 else 0 in
    if radix =? 0 then None
    else match span_digits radix rest with
         | (d :: ds, []) => Some (digits_value radix (d :: ds))
         | _ => None
         end
  | _ => None
  end.

(** StringToNumber (ECMA-262, 7.1.4.1.1): what [Number(text)] returns. *)
Definition StringToNumber (s : string) : JsNumber :=
  let cs := trim (chars s) in
  match cs with
  | [] => S754_zero false
  | _ =>
    match read_non_decimal cs with
    | Some n => decimal_to_number false n 0
    | None =>
      let (neg, rest) := read_sign cs in
      if String.eqb (text rest) "Infinity" then S754_infinity neg
      else match read_unsigned_decimal rest with
           | Some (digits, exp10) => decimal_to_number neg digits exp10
           | None => S754_nan
           end
    end
  end.

(** StringToBigInt (ECMA-262, 7.1.14): what [BigInt(text)] returns, or the
    SyntaxError it throws. *)
Definition StringToBigInt (s : string) : Completion Z :=
  let cs := trim (chars s) in
  match cs with
  | [] => Normal 0
  | _ =>
    match read_non_decimal cs with
    | Some n => Normal n
    | None =>
      let (neg, rest) := read_sign cs in
      match span_digits 10 rest with
      | (d :: ds, []) =>
        let n := digits_value 10 (d :: ds) in Normal (if neg then - n else n)
      | _ => Throw (SyntaxError ("Cannot convert " +:+ s +:+ " to a BigInt"))
      end
    end
  end.

(** Number::toString (ECMA-262, 6.1.6.1.20), radix 10.  For a positive
    finite [x] it takes integers [n], [k], [s] with [k >= 1],
    [10^(k-1) <= s < 10^k], the Number value of [s * 10^(n-k)] being [x],
    and [k] as small as possible; the candidates for a given [k] are the
    two multiples of [10^(n-k)] around [x]. *)

(** [x = num/den] exactly. *)
Definition fraction (m : positive) (e : Z) : Z * Z :=
  if 0 <=? e then (Zpos m * 2 ^ e, 1) else (Zpos m, 2 ^ (- e)).

Definition decimal_length (z : Z) : Z :=
  Z.of_nat (String.length (decimal z)).

(** For [num/den < 1]: the least [j >= 1] with [num/den * 10^j >= 1]. *)
Fixpoint leading_zeros (fuel : nat) (num den j : Z) : Z :=
  match fuel with
  | O => j
  | S fuel =>
    if den <=? num * 10 ^ j then j else leading_zeros fuel num den (j + 1)
  end.

(** The [n] with [10^(n-1) <= num/den < 10^n]. *)
Definition magnitude (num den : Z) : Z :=
  if den <=? num then decimal_length (num / den)
  else 1 - leading_zeros 400 num den 1.

Definition same_number (x y : JsNumber) : bool := SFeqb x y.

(** The integer [c] with [c * 10^scale] the candidate to print, for [k]
    digits; [None] if neither neighbour of [x] at that scale reads back as
    [x] (and [check] is set). *)
Definition candidate (x : JsNumber) (num den n k : Z) (check : bool)
  : option (Z * Z) :=
  let scale := n - k in
  let lo := if 0 <=? scale then num / (den * 10 ^ scale)
            else (num * 10 ^ (- scale)) / den in
  let hi := lo + 1 in
  let below := if 0 <=? scale then num - lo * 10 ^ scale * den
               else num * 10 ^ (- scale) - lo * den in
  let above := if 0 <=? scale then hi * 10 ^ scale * den - num
               else hi * den - num * 10 ^ (- scale) in
  let lo_ok := negb check || same_number (decimal_to_number false lo scale) x in
  let hi_ok := negb check || same_number (decimal_to_number false hi scale) x in
  let prefer_lo := (below <? above) || ((below =? above) && Z.even lo) in
  if lo_ok && hi_ok then Some (if prefer_lo then lo else hi, scale)
  else if lo_ok then Some (lo, scale)
  else if hi_ok then Some (hi, scale)
  else None.

(** [k = 1, 2, ...]: the first [k] that has a candidate; seventeen digits
    always identify a binary64. *)
Fixpoint shortest (fuel : nat) (x : JsNumber) (num den n k : Z) : Z * Z :=
  match fuel with
  | O => default (0, 0) (candidate x num den n k false)
  | S fuel =>
    match candidate x num den n k true with
    | Some c => c
    | None => shortest fuel x num den n (k + 1)
    end
  end.

Fixpoint strip_zeros (rev_digits : list ascii) : list ascii :=
  match rev_digits with
  | "0"%char :: rest => strip_zeros rest
  | _ => rev_digits
  end.

Definition zeros (count : Z) : string :=
  text (repeat "0"%char (Z.to_nat count)).

(** Steps 6 to 11 of Number::toString: the digits [ds] of [s] and [n]. *)
Definition layout (ds : list ascii) (n : Z) : string :=
  let k := Z.of_nat (length ds) in
  if (k <=? n) && (n <=? 21) then text ds +:+ zeros (n - k)
  else if (0 <? n) && (n <=? 21) then
    text (take (Z.to_nat n) ds) +:+ "." +:+ text (drop (Z.to_nat n) ds)
  else if (-6 <? n) && (n <=? 0) then "0." +:+ zeros (- n) +:+ text ds
  else
    let e := n - 1 in
    let sign := if e <? 0 then "-" else "+" in
    match ds with
    | [d] => text [d] +:+ "e" +:+ sign +:+ decimal (Z.abs e)
    | d :: rest =>
      text [d] +:+ "." +:+ text rest +:+ "e" +:+ sign +:+ decimal (Z.abs e)
    | [] => ""
    end.

Definition NumberToString (x : JsNumber) : string :=
  match x with
  | S754_nan => "NaN"
  | S754_zero _ => "0"
  | S754_infinity neg => if neg then "-Infinity" else "Infinity"
  | S754_finite neg m e =>
    let (num, den) := fraction m e in
    let n := magnitude num den in
    let (c, scale) := shortest 16 (S754_finite false m e) num den n 1 in
    let ds := chars (decimal c) in
    (if neg then "-" else "") +:+
    layout (rev (strip_zeros (rev ds))) (scale + Z.of_nat (length ds))
  end.

(** *** JSON *)

Definition quotation_mark : ascii := ascii_of_N 34.
Definition reverse_solidus : ascii := ascii_of_N 92.

Definition hex_digit (d : Z) : ascii :=
  ascii_of_N (Z.to_N (if d <? 10 then 48 + d else 87 + d)).

(** QuoteJSONString (ECMA-262, 25.5.2.3), one code unit. *)
Definition quote_char (c : ascii) : list ascii :=
  let n := code c in
  if n =? 8 then chars "\b"
  else if n =? 9 then chars "\t"
  else if n =? 10 then chars "\n"
  else if n =? 12 then chars "\f"
  else if n =? 13 then chars "\r"
  else if n =? 34 then [reverse_solidus; c]
  else if n =? 92 then [reverse_solidus; c]
  else if n <? 32 then chars "\u00" ++ [hex_digit (n / 16); hex_digit (n mod 16)]
  else [c].

Definition quote (s : string) : string :=
  text ([quotation_mark] ++ concat (map quote_char (chars s)) ++ [quotation_mark]).

Definition is_finite (x : JsNumber) : bool :=
  match x with
  | S754_zero _ | S754_finite _ _ _ => true
  | _ => false
  end.

(** SerializeJSONProperty (ECMA-262, 25.5.2.2) without replacer, gap or
    [toJSON]: [None] is [undefined].  A [JFunction] is source text that this
    model cannot call, so the step that calls a [toJSON] method is left out:
    the definition is that of the standard on values none of whose objects
    has a callable [toJSON] property. *)
Fixpoint SerializeJSONProperty (value : JsValue) : Completion (option string) :=
  match value with
  | JNull => Normal (Some "null")
  | JBoolean b => Normal (Some (if b then "true" else "false"))
  | JString s => Normal (Some (quote s))
  | JNumber x => Normal (Some (if is_finite x then NumberToString x else "null"))
  | JBigInt _ => Throw (TypeError "Do not know how to serialize a BigInt")
  | JUndefined | JSymbol _ | JFunction _ => Normal None
  | JArray elements =>
    match sequence (map (fun element =>
                           default "null" <$> SerializeJSONProperty element)
                        elements) with
    | Normal parts => Normal (Some ("[" +:+ join "," parts +:+ "]"))
    | Throw e => Throw e
    end
  | JObject properties =>
    match sequence (map (fun property =>
                           fmap (M := option) (fun m => quote property.1 +:+ ":" +:+ m)
                             <$> SerializeJSONProperty property.2)
                        properties) with
    | Normal members => Normal (Some ("{" +:+ join "," (omap id members) +:+ "}"))
    | Throw e => Throw e
    end
  end.

(** An array index: the canonical numeric string of an integer below
    [2^32 - 1]. *)
Definition array_index (key : string) : option Z :=
  match span_digits 10 (chars key) with
  | (d :: ds, []) =>
    let n := digits_value 10 (d :: ds) in
    if String.eqb (decimal n) key && (n <? 4294967295) then Some n else None
  | _ => None
  end.

(** Where a new property goes: array indices come first, in ascending
    order, then the other keys in creation order. *)
Fixpoint insert_property (key : string) (value : JsValue)
    (properties : list (string * JsValue)) : list (string * JsValue) :=
  match properties with
  | [] => [(key, value)]
  | (k, v) :: rest =>
    let before :=
      match array_index key, array_index k with
      | Some i, Some j => i <? j
      | Some _, None => true
      | None, _ => false
      end in
    if before then (key, value) :: properties
    else (k, v) :: insert_property key value rest
  end.

(** CreateDataProperty on a plain object: an existing key keeps its place
    and takes the new value. *)
Definition define_property (key : string) (value : JsValue)
    (properties : list (string * JsValue)) : list (string * JsValue) :=
  if bool_decide (key ∈ map fst properties)
  then map (fun p => if String.eqb p.1 key then (key, value) else p) properties
  else insert_property key value properties.

(** JSON white space: TAB, LF, CR, SP. *)
Fixpoint skip_ws (cs : list ascii) : list ascii :=
  match cs with
  | c :: rest =>
    if (code c =? 9) || (code c =? 10) || (code c =? 13) || (code c =? 32)
    then skip_ws rest else cs
  | [] => []
  end.

(** The code unit an escape letter stands for. *)
Definition escape_of (n : Z) : option Z :=
  if n =? 34 then Some 34
  else if n =? 92 then Some 92
  else if n =? 47 then Some 47
  else if n =? 98 then Some 8
  else if n =? 102 then Some 12
  else if n =? 110 then Some 10
  else if n =? 114 then Some 13
  else if n =? 116 then Some 9
  else None.

(** The four hexadecimal digits of a [\u] escape.  An escape above [00FF]
    names a code unit that the strings of this model do not have, and is
    refused. *)
Definition read_unicode_escape (cs : list ascii) : option (ascii * list ascii) :=
  match cs with
  | h1 :: h2 :: h3 :: h4 :: rest =>
    match digit_of 16 h1, digit_of 16 h2, digit_of 16 h3, digit_of 16 h4 with
    | Some a, Some b, Some c, Some d =>
      if (a =? 0) && (b =? 0)
      then Some (ascii_of_N (Z.to_N (c * 16 + d)), rest)
      else None
    | _, _, _, _ => None
    end
  | _ => None
  end.

(** What follows the opening quote of a JSON string, up to the closing
    one. *)
Fixpoint read_string (fuel : nat) (cs : list ascii) (acc : list ascii)
  : option (string * list ascii) :=
  match fuel with
  | O => None
  | S fuel =>
    match cs with
    | [] => None
    | c :: rest =>
      if code c =? 34 then Some (text (rev acc), rest)
      else if code c <? 32 then None
      else if code c =? 92 then
        match rest with
        | e :: tail =>
          match escape_of (code e) with
          | Some u => read_string fuel tail (ascii_of_N (Z.to_N u) :: acc)
          | None =>
            if code e =? 117 then
              match read_unicode_escape tail with
              | Some (u, tail) => read_string fuel tail (u :: acc)
              | None => None
              end
            else None
          end
        | [] => None
        end
      else read_string fuel rest (c :: acc)
    end
  end.

(** The fraction of a JSON number, if there is one. *)
Definition read_fraction (cs : list ascii) : option (list Z * list ascii) :=
  match cs with
  | c :: rest =>
    if code c =? 46 then
      match span_digits 10 rest with
      | ([], _) => None
      | found => Some found
      end
    else Some ([], cs)
  | [] => Some ([], cs)
  end.

(** The exponent of a JSON number, if there is one. *)
Definition read_json_exponent (cs : list ascii) : option (Z * list ascii) :=
  match cs with
  | c :: rest =>
    if (code c =? 101) || (code c =? 69) then
      let (neg, rest) := read_sign rest in
      match span_digits 10 rest with
      | ([], _) => None
      | (es, rest) =>
        let e := digits_value 10 es in Some (if neg then - e else e, rest)
      end
    else Some (0, cs)
  | [] => Some (0, cs)
  end.

(** The minus sign of a JSON number, if there is one. *)
Definition read_minus (cs : list ascii) : bool * list ascii :=
  match cs with
  | c :: rest => if code c =? 45 then (true, rest) else (false, cs)
  | [] => (false, [])
  end.

(** A JSON number: [-? (0 | [1-9] digits) (. digits)? ([eE] [+-]? digits)?]. *)
Definition read_number (cs : list ascii) : option (JsNumber * list ascii) :=
  let (neg, rest) := read_minus cs in
  match span_digits 10 rest with
  | ([], _) => None
  | (d :: ds, rest) =>
    if (d =? 0) && negb (bool_decide (ds = [])) then None
    else
      match read_fraction rest with
      | None => None
      | Some (fs, rest) =>
        match read_json_exponent rest with
        | None => None
        | Some (e, rest) =>
          Some (decimal_to_number neg (digits_value 10 (d :: ds ++ fs))
                  (e - Z.of_nat (length fs)), rest)
        end
      end
  end.

Definition read_word (word : string) (value : JsValue) (cs : list ascii)
  : option (JsValue * list ascii) :=
  let n := String.length word in
  if String.eqb (text (take n cs)) word then Some (value, drop n cs) else None.

(** The JSON grammar (ECMA-404), by recursive descent.  [read_value]
    reads one value after white space; [read_elements] and [read_members]
    read an array and an object from their first item on. *)
Fixpoint read_value (fuel : nat) (cs : list ascii)
  : option (JsValue * list ascii) :=
  match fuel with
  | O => None
  | S fuel =>
    match skip_ws cs with
    | [] => None
    | c :: rest =>
      let n := code c in
      if n =? 34 then
        match read_string (length cs) rest [] with
        | Some (s, rest) => Some (JString s, rest)
        | None => None
        end
      else if n =? 91 then
        match skip_ws rest with
        | c :: rest' =>
          if code c =? 93 then Some (JArray [], rest')
          else read_elements fuel rest []
        | [] => None
        end
      else if n =? 123 then
        match skip_ws rest with
        | c :: rest' =>
          if code c =? 125 then Some (JObject [], rest')
          else read_members fuel rest []
        | [] => None
        end
      else if n =? 116 then read_word "true" (JBoolean true) (c :: rest)
      else if n =? 102 then read_word "false" (JBoolean false) (c :: rest)
      else if n =? 110 then read_word "null" JNull (c :: rest)
      else
        match read_number (c :: rest) with
        | Some (x, rest) => Some (JNumber x, rest)
        | None => None
        end
    end
  end
with read_elements (fuel : nat) (cs : list ascii) (acc : list JsValue)
  : option (JsValue * list ascii) :=
  match fuel with
  | O => None
  | S fuel =>
    match read_value fuel cs with
    | Some (v, rest) =>
      match skip_ws rest with
      | ","%char :: rest => read_elements fuel rest (v :: acc)
      | "]"%char :: rest => Some (JArray (rev (v :: acc)), rest)
      | _ => None
      end
    | None => None
    end
  end
with read_members (fuel : nat) (cs : list ascii) (acc : list (string * JsValue))
  : option (JsValue * list ascii) :=
  match fuel with
  | O => None
  | S fuel =>
    match skip_ws cs with
    | c :: rest =>
      if code c =? 34 then
        match read_string (length cs) rest [] with
        | Some (key, rest) =>
          match skip_ws rest with
          | ":"%char :: rest =>
            match read_value fuel rest with
            | Some (v, rest) =>
              match skip_ws rest with
              | ","%char :: rest => read_members fuel rest (define_property key v acc)
              | "}"%char :: rest => Some (JObject (define_property key v acc), rest)
              | _ => None
              end
            | None => None
            end
          | _ => None
          end
        | None => None
        end
      else None
    | [] => None
    end
  end.

(** [JSON.parse(text)] without reviver. *)
Definition JSONParse (s : string) : Completion JsValue :=
  let cs := chars s in
  match read_value (2 * length cs + 2) cs with
  | Some (value, rest) =>
    match skip_ws rest with
    | [] => Normal value
    | _ => Throw (SyntaxError "Unexpected non-whitespace character after JSON")
    end
  | None => Throw (SyntaxError "Unexpected token in JSON")
  end.

End Ecma.

(** The text of an array or of a plain object begins with its bracket. *)
Lemma starts_structured_cons (c : ascii) (rest : string) :
  (Ecma.code c =? 91)%Z || (Ecma.code c =? 123)%Z = true ->
  starts_structured (String c rest) = true.
Proof.
  unfold starts_structured, String.prefix. intros H.
  destruct (ascii_dec "{" c) as [<-|]; [by destruct rest|].
  destruct (ascii_dec "[" c) as [<-|]; [by destruct rest|].
  apply orb_true_iff in H as [H|H]; apply Z.eqb_eq in H; exfalso.
  - apply n0. rewrite <- (ascii_N_embedding c). unfold Ecma.code in H.
    by replace (N_of_ascii c) with 91%N by lia.
  - apply n. rewrite <- (ascii_N_embedding c). unfold Ecma.code in H.
    by replace (N_of_ascii c) with 123%N by lia.
Qed.

Lemma SerializeJSONProperty_structure value t :
  is_structure value = true ->
  Ecma.SerializeJSONProperty value = Normal (Some t) ->
  starts_structured t = true.
Proof.
  destruct value; simpl; try discriminate; intros _.
  - destruct (sequence _); [|discriminate]. intros [= <-].
    by apply starts_structured_cons.
  - destruct (sequence _); [|discriminate]. intros [= <-].
    by apply starts_structured_cons.
Qed.

(** The runtime of the examples. *)
#[export] Instance ecma : JsRuntime := {|
  JSON_parse := Ecma.JSONParse;
  JSON_stringify := Ecma.SerializeJSONProperty;
  Number_of_string := Ecma.StringToNumber;
  Number_toString := Ecma.NumberToString;
  BigInt_of_string := Ecma.StringToBigInt;
  JSON_stringify_structure := SerializeJSONProperty_structure
|}.

(** ** What the statements speak of *)

(** What [setItem] hands to the storage for [value] under [key]. *)
Definition serialized `{rt : JsRuntime} (serialization : Serialization)
    (key : string) (value : JsValue) : Completion (option string) :=
  match serialization !! key ≫= serialize with
  | Some serializer => Some <$> serializer value
  | None => TypedStorage.toStorageString value
  end.

(** The world in which [LiveStorage.setItem] calls [super.setItem]. *)
Definition scheduled (key : string) (value : JsValue) (w : World) : World :=
  set_effectedKeys (Set_add (effectedKeys w) key)
    (set_microtasks (microtasks w ++ [EmitJob key value]) w).

(** The characters of the numeric character set. *)
Definition numeric_chars : list ascii :=
  ["0"; "1"; "2"; "3"; "4"; "5"; "6"; "7"; "8"; "9"; "."; "-"]%char.

(** Every character of [raw] is in the numeric character set. *)
Definition all_numeric (raw : string) : Prop :=
  Forall (fun c => c ∈ numeric_chars) (list_ascii_of_string raw).

#[export] Instance all_numeric_dec (raw : string) : Decision (all_numeric raw).
Proof. unfold all_numeric. apply _. Defined.

(** The warning [parse] prints. *)
Definition parse_warning : string :=
  "TypedStorage: Attempt to run parse object failed. Returning the value as string".

(** A value that [JSON.stringify] and [JSON.parse] carry to text and
    back. *)
Definition JSON_encodable `{rt : JsRuntime} (value : JsValue) : Prop :=
  exists text, JSON_stringify value = Normal (Some text)
               /\ JSON_parse text = Normal value.

(** A text that default deserialization reads back as itself: one that
    begins with a brace or bracket and is not JSON, or one that does not and
    has a character outside the numeric character set. *)
Definition read_as_text `{rt : JsRuntime} (raw : string) : Prop :=
  if starts_structured raw then is_normal (JSON_parse raw) = false
  else ~ all_numeric raw.

(** The errors of the spec's taxonomy that reach the caller: the
    unsupported-type error of default serialization and the quota or
    permission errors of the storage (the third class, a failed JSON decode,
    is caught in [parse]). *)
Definition in_taxonomy (e : JsError) : Prop :=
  e = UnsupportedType \/ exists name, e = DOMException name.

(** *** JSON data *)

#[export] Instance spec_float_eq_dec : EqDecision spec_float.
Proof. solve_decision. Defined.

(** A Number whose rendering is read back as itself by the JSON grammar. *)
Definition reads_back (x : spec_float) : bool :=
  Ecma.is_finite x
  && bool_decide (Ecma.read_number (Ecma.chars (Ecma.NumberToString x)) = Some (x, [])).

Definition plain_key (key : string) : bool :=
  bool_decide (Ecma.array_index key = None).

(** JSON data: null, booleans, strings, Numbers that read back, arrays of
    data, and objects of data whose keys are distinct and are not array
    indices. *)
Fixpoint json_data (value : JsValue) : bool :=
  match value with
  | JNull | JBoolean _ | JString _ => true
  | JNumber x => reads_back x
  | JArray elements => forallb json_data elements
  | JObject properties =>
    forallb (fun p => plain_key p.1 && json_data p.2) properties
    && bool_decide (NoDup (map fst properties))
  | _ => false
  end.

(** The characters [JSON.stringify] writes for JSON data. *)
Fixpoint render (value : JsValue) : list ascii :=
  match value with
  | JNull => Ecma.chars "null"
  | JBoolean b => Ecma.chars (if b then "true" else "false")
  | JString s => Ecma.chars (Ecma.quote s)
  | JNumber x => Ecma.chars (Ecma.NumberToString x)
  | JArray elements =>
    "["%char ::
      match elements with
      | [] => []
      | first :: others =>
        render first ++ concat (map (fun e => ","%char :: render e) others)
      end ++ ["]"%char]
  | JObject properties =>
    let member (p : string * JsValue) :=
      Ecma.chars (Ecma.quote p.1) ++ ":"%char :: render p.2 in
    "{"%char ::
      match properties with
      | [] => []
      | first :: others =>
        member first ++ concat (map (fun p => ","%char :: member p) others)
      end ++ ["}"%char]
  | _ => []
  end.

(** The characters between the brackets of an array. *)
Definition render_elements (elements : list JsValue) : list ascii :=
  match elements with
  | [] => []
  | first :: others =>
    render first ++ concat (map (fun e => ","%char :: render e) others)
  end.

(** The characters of one member of an object, and of all of them. *)
Definition render_member (p : string * JsValue) : list ascii :=
  Ecma.chars (Ecma.quote p.1) ++ ":"%char :: render p.2.

Definition render_members (properties : list (string * JsValue)) : list ascii :=
  match properties with
  | [] => []
  | first :: others =>
    render_member first ++ concat (map (fun p => ","%char :: render_member p) others)
  end.

(** What may follow a value inside an array or an object, or at the end of
    the text. *)
Definition terminated (rest : list ascii) : Prop :=
  match rest with
  | [] => True
  | c :: _ => c = ","%char \/ c = "]"%char \/ c = "}"%char
  end.

(** The first character of the text of a value: not white space, and not
    a closing bracket. *)
Definition opens (c : ascii) : Prop :=
  (Ecma.code c =? 9)%Z || (Ecma.code c =? 10)%Z || (Ecma.code c =? 13)%Z
  || (Ecma.code c =? 32)%Z || (Ecma.code c =? 93)%Z || (Ecma.code c =? 125)%Z
  = false.

(** The text of [value] is read back as [value], whatever follows it. *)
Definition reads (value : JsValue) : Prop :=
  json_data value = true ->
  forall fuel rest,
    length (render value) <= fuel ->
    terminated rest ->
    Ecma.read_value fuel (render value ++ rest) = Some (value, rest).

(** ** What a turn schedules and delivers *)

(** The callbacks a call hands to [afterCallStack]. *)
Definition job_of (call : Call) : list Job :=
  match call with
  | SetItem key value => [EmitJob key value]
  | RemoveItem key => [EmitJob key JNull]
  | Clear => [ClearJob]
  | GetItem _ | On _ _ | Off _ _ => []
  end.

(** The calls a queued callback makes to subscribers, given the emitter and
    the set of keys it finds when it runs. *)
Definition notifications (em : EventEmitter) (keys : list string) (job : Job)
  : list Delivery :=
  match job with
  | EmitJob key value => Emitter_emit em key value
  | ClearJob => concat (map (fun key => Emitter_emit em key JNull) keys)
  end.

(** Every key the storage holds is in [effectedKeys]. *)
Definition stored_tracked (w : World) : Prop :=
  forall key, is_Some (Storage_getItem (storage w) key) -> key ∈ effectedKeys w.

(** ** Worlds and values of the examples *)

Definition unlimited : gmap string string -> string -> string -> bool :=
  fun _ _ _ => true.

(** A storage area whose quota is used up. *)
Definition exhausted : gmap string string -> string -> string -> bool :=
  fun _ _ _ => false.

Definition new_Storage (policy : gmap string string -> string -> string -> bool)
  : Storage :=
  {| items := ∅; accepts := policy |}.

(** A page that has just constructed its store. *)
Definition new_World (st : Storage) : World :=
  {| storage := st;
     Emitter := {| listeners := ∅; nextID := 0 |};
     effectedKeys := [];
     microtasks := [];
     console := [];
     deliveries := [] |}.

(** A world whose storage holds [raw] under [key] and nothing else. *)
Definition holding (key raw : string) : World :=
  new_World {| items := {[ key := raw ]}; accepts := unlimited |}.

(** A page with one subscriber, ["render"], on the key. *)
Definition subscribed (policy : gmap string string -> string -> string -> bool)
    (key : string) : World :=
  after (LiveStorage.on key "render" (new_World (new_Storage policy))).

(** The store constructed without a second argument. *)
Definition defaults : Serialization := ∅.

(** The table of the package's documentation: [floatValue] is read back as
    the text that was stored. *)
Definition float_as_text : Serialization :=
  {[ "floatValue" := {| serialize := Some (fun value => Normal "kept");
                        deserialize := Some (fun raw => Normal (JString raw)) |} ]}.

(** The cart of the package's documentation, with one item. *)
Definition cart : JsValue :=
  JArray [JObject [("item", JString "Bananas"); ("price", JNumber (number_of_Z 3))]].

Definition one : JsValue := JNumber (number_of_Z 1).

Definition two : JsValue := JNumber (number_of_Z 2).

(** The calls [on("a", ...)], [setItem("a", 1)], [setItem("b", 2)]. *)
Definition written : World :=
  run_calls (rt := ecma) defaults
    [On "a" "render"; On "b" "render"; SetItem "a" one; SetItem "b" two]
    (new_World (new_Storage unlimited)).

(** * Properties *)

(** ** The loop of [parse] *)

Lemma numerics_chars :
  TypedStorage.numerics = map (fun c => String c EmptyString) numeric_chars.
Proof. reflexivity. Qed.

Lemma Set_has_numerics (c : ascii) :
  Set_has TypedStorage.numerics (String c EmptyString) = true <-> c ∈ numeric_chars.
Proof.
  unfold Set_has. rewrite bool_decide_eq_true, numerics_chars.
  rewrite list_elem_of_fmap. split.
  - intros (c' & Heq & Hin). by injection Heq as ->.
  - intros Hin. by exists c.
Qed.

Lemma scan_all_numeric (raw : string) :
  TypedStorage.scan raw = true <-> all_numeric raw.
Proof.
  unfold all_numeric. induction raw as [|c rest IH]; simpl.
  - split; [constructor|done].
  - rewrite Forall_cons, <- IH, <- Set_has_numerics.
    destruct (Set_has _ _); simpl; intuition congruence.
Qed.

Lemma scan_not_numeric (raw : string) :
  TypedStorage.scan raw = false <-> ~ all_numeric raw.
Proof.
  rewrite <- scan_all_numeric. destruct (TypedStorage.scan raw); intuition congruence.
Qed.

(** ** Reading *)

Section Reading.
Context `{rt : JsRuntime}.
Variable serialization : Serialization.

Lemma getItem_absent_world (key : string) (w : World) :
  Storage_getItem (storage w) key = None ->
  TypedStorage.getItem serialization key w = (Normal JNull, w).
Proof.
  intros Habsent. unfold TypedStorage.getItem, storage_getItem, mbind, M_bind.
  by rewrite Habsent.
Qed.

Lemma getItem_deserializer (key raw : string) g (w : World) :
  serialization !! key ≫= deserialize = Some g ->
  Storage_getItem (storage w) key = Some raw ->
  TypedStorage.getItem serialization key w = (g raw, w).
Proof.
  intros Hg Hraw. unfold TypedStorage.getItem, storage_getItem, mbind at 1, M_bind.
  by rewrite Hraw, Hg.
Qed.

Lemma getItem_parse (key raw : string) (w : World) :
  serialization !! key ≫= deserialize = None ->
  Storage_getItem (storage w) key = Some raw ->
  TypedStorage.getItem serialization key w = TypedStorage.parse key raw w.
Proof.
  intros Hg Hraw. unfold TypedStorage.getItem, storage_getItem, mbind at 1, M_bind.
  by rewrite Hraw, Hg.
Qed.

Lemma parse_structured (key raw : string) (w : World) :
  starts_structured raw = true ->
  TypedStorage.parse key raw w =
    match JSON_parse raw with
    | Normal value => (Normal value, w)
    | Throw _ => (Normal (JString raw), set_console (console w ++ [parse_warning]) w)
    end.
Proof.
  intros Hs. unfold TypedStorage.parse, String_startsWith.
  unfold starts_structured in Hs. rewrite Hs.
  unfold try_catch, lift. by destruct (JSON_parse raw).
Qed.

Lemma parse_text (key raw : string) (w : World) :
  starts_structured raw = false ->
  ~ all_numeric raw ->
  TypedStorage.parse key raw w = (Normal (JString raw), w).
Proof.
  intros Hs Hn. unfold TypedStorage.parse, String_startsWith.
  unfold starts_structured in Hs. rewrite Hs.
  apply scan_not_numeric in Hn. by rewrite Hn.
Qed.

Lemma parse_numeric (key raw : string) (w : World) :
  starts_structured raw = false ->
  all_numeric raw ->
  TypedStorage.parse key raw w =
    if String_includes (Number_toString (Number_of_string raw)) "e"
    then (JBigInt <$> BigInt_of_string raw, w)
    else (Normal (JNumber (Number_of_string raw)), w).
Proof.
  intros Hs Hn. unfold TypedStorage.parse, String_startsWith.
  unfold starts_structured in Hs. rewrite Hs.
  apply scan_all_numeric in Hn. rewrite Hn. simpl.
  unfold String_toString. destruct (String_includes _ _); [|done].
  unfold mbind, M_bind, lift. by destruct (BigInt_of_string raw).
Qed.

End Reading.

(** ** Writing *)

Section Writing.
Context `{rt : JsRuntime}.
Variable serialization : Serialization.

Lemma setItem_serialized (key : string) (value : JsValue) (w : World) :
  TypedStorage.setItem serialization key value w =
    match serialized serialization key value with
    | Normal text => storage_setItem key (DOMString text) w
    | Throw e => (Throw e, w)
    end.
Proof.
  unfold TypedStorage.setItem, mbind at 1, M_bind, lift.
  fold (serialized serialization key value).
  by destruct (serialized serialization key value).
Qed.


Lemma serialized_default (key : string) (value : JsValue) :
  serialization !! key ≫= serialize = None ->
  serialized serialization key value = TypedStorage.toStorageString value.
Proof. intros Hnone. unfold serialized. by rewrite Hnone. Qed.

(** The subclass adds to the queue and to the keys, and then calls
    [super.setItem], whose completion is its own. *)
Lemma LiveStorage_setItem_outcome (key : string) (value : JsValue) (w : World) :
  outcome (LiveStorage.setItem serialization key value w)
  = outcome (TypedStorage.setItem serialization key value w).
Proof.
  change (LiveStorage.setItem serialization key value w)
    with (TypedStorage.setItem serialization key value (scheduled key value w)).
  rewrite !setItem_serialized. destruct (serialized _ _ _); [|done].
  unfold storage_setItem, Storage_setItem; simpl.
  by destruct (accepts _ _ _ _).
Qed.

Lemma removeItem_absent (key : string) (w : World) :
  Storage_getItem (storage (after (TypedStorage.removeItem key w))) key = None.
Proof. unfold Storage_getItem; simpl. apply lookup_delete_eq. Qed.

End Writing.

(** ** The JSON text of a value, and back *)

Lemma JsValue_nested_ind (P : JsValue -> Prop) :
  P JUndefined -> P JNull -> (forall b, P (JBoolean b)) ->
  (forall x, P (JNumber x)) -> (forall z, P (JBigInt z)) ->
  (forall s, P (JString s)) -> (forall d, P (JSymbol d)) ->
  (forall s, P (JFunction s)) ->
  (forall elements, Forall P elements -> P (JArray elements)) ->
  (forall properties, Forall (fun p => P p.2) properties -> P (JObject properties)) ->
  forall value, P value.
Proof.
  intros Hu Hn Hb Hx Hz Hs Hd Hf Ha Ho. fix IH 1. intros [| |b|x|z|s|d|s|elements|properties].
  - exact Hu.
  - exact Hn.
  - apply Hb.
  - apply Hx.
  - apply Hz.
  - apply Hs.
  - apply Hd.
  - apply Hf.
  - apply Ha. induction elements as [|e es IHes]; constructor; [apply IH|exact IHes].
  - apply Ho. induction properties as [|[k v] ps IHps]; constructor; [apply IH|exact IHps].
Qed.

(** *** Strings *)

Lemma read_string_quote_char (c : ascii) (fuel : nat) (rest acc : list ascii) :
  Ecma.read_string (S fuel) (Ecma.quote_char c ++ rest) acc
  = Ecma.read_string fuel rest (c :: acc).
Proof.
  destruct c as [[] [] [] [] [] [] [] []]; reflexivity.
Qed.

Lemma read_string_quoted (cs : list ascii) (fuel : nat) (rest acc : list ascii) :
  length cs < fuel ->
  Ecma.read_string fuel
    (concat (map Ecma.quote_char cs) ++ Ecma.quotation_mark :: rest) acc
  = Some (Ecma.text (rev acc ++ cs), rest).
Proof.
  revert fuel acc. induction cs as [|c cs IH]; intros fuel acc Hfuel.
  - destruct fuel; [simpl in Hfuel; lia|]. simpl. by rewrite app_nil_r.
  - destruct fuel; [simpl in Hfuel; lia|].
    cbn [map concat]. rewrite <- app_assoc, read_string_quote_char.
    rewrite IH by (simpl in Hfuel; lia). simpl. by rewrite <- app_assoc.
Qed.

(** *** Numbers *)

Section NumberText.
Local Open Scope Z_scope.

Lemma span_digits_terminated (rest : list ascii) :
  terminated rest -> Ecma.span_digits 10 rest = ([], rest).
Proof.
  destruct rest as [|c rest]; [done|]. by intros [->|[->| ->]].
Qed.

Lemma span_digits_app (cs rest : list ascii) :
  terminated rest ->
  Ecma.span_digits 10 (cs ++ rest)
  = ((Ecma.span_digits 10 cs).1, (Ecma.span_digits 10 cs).2 ++ rest).
Proof.
  intros Hrest. induction cs as [|c cs IH]; simpl.
  - by apply span_digits_terminated.
  - destruct (Ecma.digit_of 10 c); [|done].
    rewrite IH. by destruct (Ecma.span_digits 10 cs).
Qed.

Lemma read_sign_app (c : ascii) (cs rest : list ascii) :
  Ecma.read_sign ((c :: cs) ++ rest)
  = ((Ecma.read_sign (c :: cs)).1, (Ecma.read_sign (c :: cs)).2 ++ rest).
Proof.
  simpl. destruct (Ecma.code c =? 45); [done|]. by destruct (Ecma.code c =? 43).
Qed.

Lemma read_minus_app (c : ascii) (cs rest : list ascii) :
  Ecma.read_minus ((c :: cs) ++ rest)
  = ((Ecma.read_minus (c :: cs)).1, (Ecma.read_minus (c :: cs)).2 ++ rest).
Proof. simpl. by destruct (Ecma.code c =? 45). Qed.

Lemma read_fraction_app (cs rest : list ascii) fs tail :
  terminated rest ->
  Ecma.read_fraction cs = Some (fs, tail) ->
  Ecma.read_fraction (cs ++ rest) = Some (fs, tail ++ rest).
Proof.
  intros Hrest. destruct cs as [|c cs]; simpl.
  - intros [= <- <-]. destruct rest as [|c rest]; [done|].
    by destruct Hrest as [->|[->| ->]].
  - destruct (Ecma.code c =? 46); [|by intros [= <- <-]].
    rewrite span_digits_app by done.
    destruct (Ecma.span_digits 10 cs) as [[|d ds] tl]; [done|].
    by intros [= <- <-].
Qed.

Lemma read_json_exponent_app (cs rest : list ascii) e tail :
  terminated rest ->
  Ecma.read_json_exponent cs = Some (e, tail) ->
  Ecma.read_json_exponent (cs ++ rest) = Some (e, tail ++ rest).
Proof.
  intros Hrest. destruct cs as [|c cs]; simpl.
  - intros [= <- <-]. destruct rest as [|c rest]; [done|].
    by destruct Hrest as [->|[->| ->]].
  - destruct (_ || _); [|by intros [= <- <-]].
    destruct cs as [|c' cs]; [done|].
    rewrite read_sign_app.
    destruct (Ecma.read_sign (c' :: cs)) as [neg r1]. cbn [fst snd].
    rewrite span_digits_app by done.
    destruct (Ecma.span_digits 10 r1) as [[|d ds] tl]; [done|].
    by intros [= <- <-].
Qed.

Lemma read_number_app (cs rest : list ascii) (x : spec_float) :
  terminated rest ->
  Ecma.read_number cs = Some (x, []) ->
  Ecma.read_number (cs ++ rest) = Some (x, rest).
Proof.
  intros Hrest. destruct cs as [|c cs]; [done|].
  unfold Ecma.read_number. rewrite read_minus_app.
  destruct (Ecma.read_minus (c :: cs)) as [neg r0]. cbn [fst snd].
  rewrite span_digits_app by done.
  destruct (Ecma.span_digits 10 r0) as [[|d ds] r1]; [done|]. cbn [fst snd].
  destruct (_ && _); [done|].
  destruct (Ecma.read_fraction r1) as [[fs r2]|] eqn:Hf; [|done].
  rewrite (read_fraction_app _ _ _ _ Hrest Hf).
  destruct (Ecma.read_json_exponent r2) as [[e r3]|] eqn:He; [|done].
  rewrite (read_json_exponent_app _ _ _ _ Hrest He).
  by intros [= <- ->].
Qed.

(** A JSON number begins with a minus sign or a digit. *)
Lemma read_number_head (c : ascii) (cs : list ascii) r :
  Ecma.read_number (c :: cs) = Some r ->
  Ecma.code c = 45 \/ 48 <= Ecma.code c <= 57.
Proof.
  unfold Ecma.read_number, Ecma.read_minus. intros H.
  destruct (Ecma.code c =? 45) eqn:Hm; [left; lia|]. right.
  simpl in H. unfold Ecma.digit_of in H.
  destruct ((48 <=? Ecma.code c) && (Ecma.code c <=? 57)) eqn:Hd; [lia|].
  exfalso. revert H.
  destruct ((97 <=? Ecma.code c) && (Ecma.code c <=? 102)) eqn:Ha.
  { replace (Ecma.code c - 87 <? 10) with false by lia. done. }
  destruct ((65 <=? Ecma.code c) && (Ecma.code c <=? 70)) eqn:Hb.
  { replace (Ecma.code c - 55 <? 10) with false by lia. done. }
  done.
Qed.
End NumberText.

(** *** Values *)

Lemma chars_text (cs : list ascii) : Ecma.chars (Ecma.text cs) = cs.
Proof. apply list_ascii_of_string_of_list_ascii. Qed.

Lemma text_chars (s : string) : Ecma.text (Ecma.chars s) = s.
Proof. apply string_of_list_ascii_of_string. Qed.

Lemma chars_quote (s : string) :
  Ecma.chars (Ecma.quote s)
  = Ecma.quotation_mark
      :: concat (map Ecma.quote_char (Ecma.chars s)) ++ [Ecma.quotation_mark].
Proof. unfold Ecma.quote. by rewrite chars_text. Qed.

Lemma quote_char_length (cs : list ascii) :
  length cs <= length (concat (map Ecma.quote_char cs)).
Proof.
  induction cs as [|c cs IH]; simpl; [lia|]. rewrite length_app.
  assert (1 <= length (Ecma.quote_char c)); [|lia].
  destruct c as [[] [] [] [] [] [] [] []]; vm_compute; lia.
Qed.

Lemma render_opens (value : JsValue) :
  json_data value = true ->
  exists c tail, render value = c :: tail /\ opens c.
Proof.
  destruct value as [| |b|x|z|s|d|s|elements|properties]; try done; intros Hdata.
  - by eexists _, _.
  - destruct b; by eexists _, _.
  - cbn [json_data] in Hdata. apply andb_prop in Hdata as [_ Hread].
    apply bool_decide_eq_true in Hread. cbn [render].
    destruct (Ecma.chars (Ecma.NumberToString x)) as [|c cs]; [done|].
    exists c, cs. split; [done|].
    apply read_number_head in Hread. unfold opens.
    repeat (apply orb_false_intro); lia.
  - cbn [render]. rewrite chars_quote. by eexists _, _.
  - by eexists _, _.
  - by eexists _, _.
Qed.
Lemma skip_ws_opens (c : ascii) (cs : list ascii) :
  opens c -> Ecma.skip_ws (c :: cs) = c :: cs.
Proof.
  unfold opens. intros H. simpl.
  repeat (apply orb_false_elim in H as [H ?]).
  by replace ((Ecma.code c =? 9)%Z || (Ecma.code c =? 10)%Z
              || (Ecma.code c =? 13)%Z || (Ecma.code c =? 32)%Z) with false
    by (symmetry; repeat (apply orb_false_intro); done).
Qed.

Lemma skip_ws_comma (cs : list ascii) :
  Ecma.skip_ws (","%char :: cs) = ","%char :: cs.
Proof. reflexivity. Qed.

Lemma skip_ws_bracket (cs : list ascii) :
  Ecma.skip_ws ("]"%char :: cs) = "]"%char :: cs.
Proof. reflexivity. Qed.

Lemma skip_ws_brace (cs : list ascii) :
  Ecma.skip_ws ("}"%char :: cs) = "}"%char :: cs.
Proof. reflexivity. Qed.

Lemma skip_ws_colon (cs : list ascii) :
  Ecma.skip_ws (":"%char :: cs) = ":"%char :: cs.
Proof. reflexivity. Qed.

Lemma read_elements_render (first : JsValue) (others : list JsValue) :
  Forall reads (first :: others) ->
  forallb json_data (first :: others) = true ->
  forall fuel rest acc,
    length (render_elements (first :: others)) + 1 <= fuel ->
    Ecma.read_elements fuel
      (render_elements (first :: others) ++ "]"%char :: rest) acc
    = Some (JArray (rev acc ++ first :: others), rest).
Proof.
  revert first. induction others as [|second others IH];
    intros first Hreads Hdata fuel rest acc Hfuel.
  - apply Forall_inv in Hreads. cbn [forallb] in Hdata.
    apply andb_prop in Hdata as [Hdata _].
    cbn [render_elements map concat] in *. rewrite app_nil_r in *.
    destruct fuel as [|fuel]; [lia|]. cbn [Ecma.read_elements].
    rewrite (Hreads Hdata); [|lia|by right; left].
    by rewrite skip_ws_bracket.
  - pose proof (Forall_inv Hreads) as Hfirst.
    apply Forall_inv_tail in Hreads.
    cbn [forallb] in Hdata. apply andb_prop in Hdata as [Hdata Hothers].
    destruct fuel as [|fuel]; [lia|].
    cbn [render_elements map concat] in *.
    rewrite !length_app in Hfuel. cbn [length] in Hfuel.
    cbn [Ecma.read_elements]. rewrite <- !app_assoc.
    rewrite (Hfirst Hdata); [|lia|by left].
    cbn [app]. rewrite skip_ws_comma.
    specialize (IH second Hreads Hothers fuel rest (first :: acc)).
    rewrite <- app_assoc in IH.
    rewrite IH by (rewrite length_app; lia).
    cbn [rev]. by rewrite <- app_assoc.
Qed.

Lemma insert_property_plain (key : string) (value : JsValue)
    (properties : list (string * JsValue)) :
  Ecma.array_index key = None ->
  Ecma.insert_property key value properties = properties ++ [(key, value)].
Proof.
  intros Hkey. induction properties as [|[k v] ps IH]; [done|].
  cbn [Ecma.insert_property]. rewrite Hkey, IH. done.
Qed.

Lemma define_property_fresh (key : string) (value : JsValue)
    (properties : list (string * JsValue)) :
  key ∉ map fst properties ->
  Ecma.array_index key = None ->
  Ecma.define_property key value properties = properties ++ [(key, value)].
Proof.
  intros Hfresh Hkey. unfold Ecma.define_property.
  rewrite bool_decide_eq_false_2 by done. by apply insert_property_plain.
Qed.
Lemma read_key (key : string) (fuel : nat) (rest : list ascii) :
  length (Ecma.chars (Ecma.quote key)) <= fuel ->
  exists tail,
    Ecma.chars (Ecma.quote key) ++ rest = Ecma.quotation_mark :: tail
    /\ Ecma.read_string fuel tail [] = Some (key, rest).
Proof.
  rewrite chars_quote. cbn [length]. rewrite length_app. cbn [length]. intros Hfuel.
  exists (concat (map Ecma.quote_char (Ecma.chars key)) ++ Ecma.quotation_mark :: rest).
  split; [cbn [app]; by rewrite <- app_assoc|].
  rewrite read_string_quoted.
  - cbn [rev app]. by rewrite text_chars.
  - pose proof (quote_char_length (Ecma.chars key)). lia.
Qed.

Lemma read_members_render (first : string * JsValue)
    (others : list (string * JsValue)) :
  Forall (fun p => reads p.2) (first :: others) ->
  forallb (fun p => plain_key p.1 && json_data p.2) (first :: others) = true ->
  forall fuel rest acc,
    NoDup (map fst (acc ++ first :: others)) ->
    length (render_members (first :: others)) + 1 <= fuel ->
    Ecma.read_members fuel
      (render_members (first :: others) ++ "}"%char :: rest) acc
    = Some (JObject (acc ++ first :: others), rest).
Proof.
  revert first. induction others as [|second others IH];
    intros [key value] Hreads Hdata fuel rest acc Hkeys Hfuel.
  - apply Forall_inv in Hreads. cbn [forallb fst snd] in Hdata, Hreads.
    apply andb_prop in Hdata as [Hdata _].
    apply andb_prop in Hdata as [Hplain Hdata].
    apply bool_decide_eq_true in Hplain.
    cbn [render_members map concat] in *. rewrite app_nil_r in *.
    unfold render_member in *. cbn [fst snd] in *.
    rewrite length_app in Hfuel. cbn [length] in Hfuel.
    destruct fuel as [|fuel]; [lia|]. cbn [Ecma.read_members].
    rewrite <- app_assoc. cbn [app].
    destruct (read_key key
                (length (Ecma.chars (Ecma.quote key)
                         ++ ":"%char :: render value ++ "}"%char :: rest))
                (":"%char :: render value ++ "}"%char :: rest))
      as (tail & Htail & Hread); [rewrite length_app; lia|].
    rewrite Htail in *. cbn [Ecma.skip_ws]. change (Ecma.code Ecma.quotation_mark) with 34%Z.
    cbn [Z.eqb Pos.eqb orb]. rewrite Hread, skip_ws_colon.
    rewrite (Hreads Hdata); [|lia|by right; right].
    rewrite skip_ws_brace, define_property_fresh; [done| |done].
    rewrite map_app in Hkeys. apply NoDup_app in Hkeys as (_ & Hkeys & _).
    intros Hin. apply (Hkeys key Hin). cbn. by left.
  - pose proof (Forall_inv Hreads) as Hfirst.
    apply Forall_inv_tail in Hreads.
    cbn [forallb] in Hdata. apply andb_prop in Hdata as [Hdata Hothers].
    cbn [fst snd] in Hdata, Hfirst.
    apply andb_prop in Hdata as [Hplain Hdata].
    apply bool_decide_eq_true in Hplain.
    destruct fuel as [|fuel]; [lia|].
    cbn [render_members map concat] in *.
    unfold render_member at 1. unfold render_member at 1 in Hfuel.
    cbn [fst snd] in *.
    rewrite !length_app in Hfuel. cbn [length] in Hfuel.
    cbn [Ecma.read_members]. rewrite <- !app_assoc. cbn [app].
    rewrite <- ?app_assoc.
    match goal with
    | |- context [Ecma.chars (Ecma.quote key) ++ ?r] =>
      destruct (read_key key (length (Ecma.chars (Ecma.quote key) ++ r)) r)
        as (tail & Htail & Hread); [rewrite length_app; lia|]
    end.
    rewrite Htail in *. cbn [Ecma.skip_ws]. change (Ecma.code Ecma.quotation_mark) with 34%Z.
    cbn [Z.eqb Pos.eqb orb]. rewrite Hread, skip_ws_colon.
    rewrite (Hfirst Hdata); [|lia|by left].
    cbn [app]. rewrite skip_ws_comma.
    assert (Hfresh : key ∉ map fst acc).
    { rewrite map_app in Hkeys. apply NoDup_app in Hkeys as (_ & Hkeys & _).
      intros Hin. apply (Hkeys key Hin). cbn. by left. }
    rewrite define_property_fresh by done.
    specialize (IH second Hreads Hothers fuel rest (acc ++ [(key, value)])).
    rewrite <- !app_assoc in IH. cbn [app] in IH.
    rewrite IH; [done|done|].
    rewrite length_app. lia.
Qed.

Lemma skip_ws_quotation_mark (cs : list ascii) :
  Ecma.skip_ws (Ecma.quotation_mark :: cs) = Ecma.quotation_mark :: cs.
Proof. reflexivity. Qed.

Lemma read_value_string (fuel : nat) (cs : list ascii) :
  Ecma.read_value (S fuel) (Ecma.quotation_mark :: cs)
  = match Ecma.read_string (S (length cs)) cs [] with
    | Some (s, rest) => Some (JString s, rest)
    | None => None
    end.
Proof. reflexivity. Qed.

Lemma read_value_array (fuel : nat) (cs : list ascii) :
  Ecma.read_value (S fuel) ("["%char :: cs)
  = match Ecma.skip_ws cs with
    | c :: rest =>
      if (Ecma.code c =? 93)%Z then Some (JArray [], rest)
      else Ecma.read_elements fuel cs []
    | [] => None
    end.
Proof. reflexivity. Qed.

Lemma read_value_object (fuel : nat) (cs : list ascii) :
  Ecma.read_value (S fuel) ("{"%char :: cs)
  = match Ecma.skip_ws cs with
    | c :: rest =>
      if (Ecma.code c =? 125)%Z then Some (JObject [], rest)
      else Ecma.read_members fuel cs []
    | [] => None
    end.
Proof. reflexivity. Qed.

Lemma read_value_render (value : JsValue) : reads value.
Proof.
  induction value as [| |b|x|z|s|d|s|elements IH|properties IH]
    using JsValue_nested_ind; unfold reads; try done;
    intros Hdata fuel rest Hfuel Hrest.
  - destruct fuel as [|fuel]; [cbn in Hfuel; lia|]. reflexivity.
  - destruct fuel as [|fuel]; [destruct b; cbn in Hfuel; lia|].
    destruct b; reflexivity.
  - cbn [json_data] in Hdata. apply andb_prop in Hdata as [_ Hread].
    apply bool_decide_eq_true in Hread. cbn [render] in *.
    destruct (Ecma.chars (Ecma.NumberToString x)) as [|c cs] eqn:Hcs; [done|].
    destruct fuel as [|fuel]; [cbn in Hfuel; lia|].
    pose proof (read_number_head _ _ _ Hread) as Hc.
    cbn [Ecma.read_value app].
    rewrite skip_ws_opens by (unfold opens; repeat (apply orb_false_intro); lia).
    cbv zeta.
    replace (Ecma.code c =? 34)%Z with false by lia.
    replace (Ecma.code c =? 91)%Z with false by lia.
    replace (Ecma.code c =? 123)%Z with false by lia.
    replace (Ecma.code c =? 116)%Z with false by lia.
    replace (Ecma.code c =? 102)%Z with false by lia.
    replace (Ecma.code c =? 110)%Z with false by lia.
    change (c :: cs ++ rest) with ((c :: cs) ++ rest).
    by rewrite (read_number_app _ _ _ Hrest Hread).
  - cbn [render] in *.
    destruct fuel as [|fuel]; [rewrite chars_quote in Hfuel; cbn in Hfuel; lia|].
    destruct (read_key s (length (Ecma.chars (Ecma.quote s) ++ rest)) rest)
      as (tail & Htail & Hread); [rewrite length_app; lia|].
    rewrite Htail in *. rewrite read_value_string.
    cbn [length] in Hread. by rewrite Hread.
  - cbn [json_data] in Hdata. cbn [render] in *.
    destruct fuel as [|fuel]; [cbn in Hfuel; lia|].
    destruct elements as [|first others]; [reflexivity|].
    fold (render_elements (first :: others)) in *.
    cbn [length] in Hfuel. rewrite length_app in Hfuel. cbn [length] in Hfuel.
    destruct (render_opens first) as (c & tail & Hhead & Hopens).
    { cbn [forallb] in Hdata. by apply andb_prop in Hdata as [? _]. }
    cbn [app]. rewrite read_value_array, <- app_assoc. cbn [app].
    assert (Hskip : exists tail', render_elements (first :: others)
                                  ++ "]"%char :: rest = c :: tail').
    { cbn [render_elements]. rewrite Hhead. by eexists. }
    destruct Hskip as (tail' & Htail').
    rewrite Htail' at 1. rewrite skip_ws_opens by done.
    unfold opens in Hopens.
    replace (Ecma.code c =? 93)%Z with false
      by (repeat (apply orb_false_elim in Hopens as [Hopens ?]); done).
    rewrite (read_elements_render first others IH Hdata) by lia.
    done.
  - cbn [json_data] in Hdata. apply andb_prop in Hdata as [Hdata Hkeys].
    apply bool_decide_eq_true in Hkeys. cbn [render] in *.
    destruct fuel as [|fuel]; [cbn in Hfuel; lia|].
    destruct properties as [|first others]; [reflexivity|].
    fold (render_member first) in *.
    change (fun p : string * JsValue =>
              ","%char :: Ecma.chars (Ecma.quote p.1) ++ ":"%char :: render p.2)
      with (fun p => ","%char :: render_member p) in *.
    fold (render_members (first :: others)) in *.
    cbn [length] in Hfuel. rewrite length_app in Hfuel. cbn [length] in Hfuel.
    cbn [app]. rewrite read_value_object, <- app_assoc. cbn [app].
    assert (Hskip : exists tail', render_members (first :: others)
                                  ++ "}"%char :: rest
                                  = Ecma.quotation_mark :: tail').
    { cbn [render_members]. unfold render_member at 1.
      rewrite chars_quote. by eexists. }
    destruct Hskip as (tail' & Htail').
    rewrite Htail' at 1. rewrite skip_ws_quotation_mark.
    change (Ecma.code Ecma.quotation_mark =? 125)%Z with false. cbv iota.
    rewrite (read_members_render first others IH Hdata fuel rest []) by (done || lia).
    done.
Qed.

Lemma sequence_Normal {A B} (f : A -> Completion B) (g : A -> B) (l : list A) :
  Forall (fun a => f a = Normal (g a)) l ->
  sequence (map f l) = Normal (map g l).
Proof.
  induction 1 as [|a l Ha _ IH]; [done|]. cbn [map sequence]. by rewrite Ha, IH.
Qed.

Lemma chars_app (a b : string) :
  Ecma.chars (a +:+ b) = Ecma.chars a ++ Ecma.chars b.
Proof.
  induction a as [|c a IH]; [done|].
  change (String c a +:+ b) with (String c (a +:+ b)).
  unfold Ecma.chars in *. cbn [list_ascii_of_string app]. by rewrite IH.
Qed.

Lemma chars_join_cons (first : string) (others : list string) :
  Ecma.chars (join "," (first :: others))
  = Ecma.chars first ++ concat (map (fun s => ","%char :: Ecma.chars s) others).
Proof.
  unfold join. revert first. induction others as [|second others IH]; intros first.
  - cbn. by rewrite app_nil_r.
  - cbn [fold_left map concat]. rewrite IH, !chars_app. cbn.
    by rewrite <- app_assoc.
Qed.

Lemma Forall_json_data (Q : JsValue -> Prop) (elements : list JsValue) :
  Forall (fun e => json_data e = true -> Q e) elements ->
  forallb json_data elements = true ->
  Forall Q elements.
Proof.
  induction 1 as [|e es He _ IH]; [done|]. cbn [forallb]. intros Hdata.
  apply andb_prop in Hdata as [Hdata Hrest]. constructor; auto.
Qed.

Lemma chars_joined (parts : list string) (pieces : list (list ascii)) :
  map Ecma.chars parts = pieces ->
  Ecma.chars (join "," parts)
  = match pieces with
    | [] => []
    | first :: others => first ++ concat (map (fun cs => ","%char :: cs) others)
    end.
Proof.
  intros <-. destruct parts as [|first others]; [done|].
  rewrite chars_join_cons. cbn [map]. by rewrite map_map.
Qed.

Lemma text_bracketed (opening closing : ascii) (inner : string)
    (body : list ascii) :
  Ecma.chars inner = body ->
  String opening "" +:+ inner +:+ String closing ""
  = Ecma.text (opening :: body ++ [closing]).
Proof.
  intros <-. rewrite <- (text_chars (_ +:+ _)). f_equal.
  by rewrite !chars_app.
Qed.

Lemma omap_id_Some {A B} (h : A -> B) (l : list A) :
  omap id (map (fun a => Some (h a)) l) = map h l.
Proof. induction l as [|a l IH]; [done|]. cbn. by rewrite IH. Qed.

Lemma SerializeJSONProperty_render (value : JsValue) :
  json_data value = true ->
  Ecma.SerializeJSONProperty value = Normal (Some (Ecma.text (render value))).
Proof.
  induction value as [| |b|x|z|s|d|s|elements IH|properties IH]
    using JsValue_nested_ind; try done; intros Hdata.
  - by destruct b.
  - cbn [json_data] in Hdata. apply andb_prop in Hdata as [Hfin _].
    cbn. by rewrite Hfin, text_chars.
  - cbn. by rewrite text_chars.
  - cbn [json_data] in Hdata. cbn [Ecma.SerializeJSONProperty render].
    rewrite (sequence_Normal _ (fun e => Ecma.text (render e))).
    + f_equal. f_equal. apply text_bracketed.
      rewrite (chars_joined _ (map render elements)).
      * destruct elements as [|first others]; [done|].
        cbn [map]. by rewrite map_map.
      * rewrite map_map. apply map_ext. intros e. apply chars_text.
    + eapply Forall_impl; [exact (Forall_json_data _ _ IH Hdata)|].
      intros e He. cbn beta. by rewrite He.
  - cbn [json_data] in Hdata. apply andb_prop in Hdata as [Hdata _].
    cbn [Ecma.SerializeJSONProperty render].
    rewrite (sequence_Normal _
               (fun p => Some (Ecma.text (render_member p)))).
    + rewrite omap_id_Some. f_equal. f_equal. apply text_bracketed.
      rewrite (chars_joined _ (map render_member properties)).
      * destruct properties as [|first others]; [done|].
        cbn [map]. by rewrite map_map.
      * rewrite map_map. apply map_ext. intros p. apply chars_text.
    + clear -IH Hdata. induction IH as [|[k v] ps Hv _ IHps]; [done|].
      cbn [forallb fst snd] in Hdata.
      apply andb_prop in Hdata as [Hp Hps].
      apply andb_prop in Hp as [_ Hp].
      constructor; [|by apply IHps].
      cbn [fst snd] in *. rewrite (Hv Hp). cbn. f_equal. f_equal.
      unfold render_member. cbn [fst snd].
      rewrite <- (text_chars (_ +:+ _)). f_equal.
      by rewrite !chars_app, chars_text.
Qed.

(** JSON data is carried to text and back. *)
Lemma JSONParse_render (value : JsValue) :
  json_data value = true ->
  Ecma.JSONParse (Ecma.text (render value)) = Normal value.
Proof.
  intros Hdata. unfold Ecma.JSONParse. rewrite chars_text.
  pose proof (read_value_render value Hdata
                (2 * length (render value) + 2) []) as Hread.
  rewrite app_nil_r in Hread. rewrite Hread; [done|lia|done].
Qed.

Lemma json_data_encodable (value : JsValue) :
  json_data value = true -> JSON_encodable (rt := ecma) value.
Proof.
  intros Hdata. exists (Ecma.text (render value)). split.
  - by apply SerializeJSONProperty_render.
  - by apply JSONParse_render.
Qed.

(** ** [TypedStorage]: the claims *)

(** C8.  When the persistent store has no entry for a key (it was never
    written, or it was removed), [getItem] returns [null] and leaves the world
    as it was.  This holds whatever the override table and the built-ins are,
    those that throw on every input included: neither the [deserialize]
    override of the key nor default inference is run. *)
Theorem getItem_absent_returns_null `{rt : JsRuntime}
    (serialization : Serialization) (key : string) (w : World) :
  Storage_getItem (storage w) key = None ->
  TypedStorage.getItem serialization key w = (Normal JNull, w)
  /\ LiveStorage.getItem serialization key w = (Normal JNull, w).
Proof.
  intros Habsent. split; by apply getItem_absent_world.
Qed.

(** C5.  A key with a [serialize] override stores what that function
    returns, as it is, and a key with a [deserialize] override reads what that
    function returns from the stored text; default serialization and default
    inference do not appear on the right-hand sides, whatever the value or the
    stored text (numeric-looking text included). *)
Theorem override_precedence `{rt : JsRuntime}
    (serialization : Serialization) (key : string) (w : World) :
  (forall f value,
     serialization !! key ≫= serialize = Some f ->
     TypedStorage.setItem serialization key value w =
       match f value with
       | Normal text => storage_setItem key text w
       | Throw e => (Throw e, w)
       end)
  /\ (forall g raw,
        serialization !! key ≫= deserialize = Some g ->
        Storage_getItem (storage w) key = Some raw ->
        TypedStorage.getItem serialization key w = (g raw, w)).
Proof.
  split.
  - intros f value Hf. rewrite setItem_serialized. unfold serialized.
    rewrite Hf. by destruct (f value).
  - intros g raw Hg Hraw. by apply getItem_deserializer.
Qed.



(** C3.  The code does not do what the claim says at the stored text
    "0.0000001" (as after [setItem("userId", "0.0000001")]) on a key without
    override: the text begins with neither a brace nor a bracket, every
    character is in the numeric character set and the Number it converts to
    is rendered "1e-7", with an exponent marker, so [parse] calls [BigInt] on
    the text; [BigInt] throws a SyntaxError and so does [getItem], which
    returns neither an arbitrary-precision integer nor the Number nor the
    text.  The branch of [parse] next to it, on text that begins with a
    brace, catches the failure of [JSON.parse] and returns the text. *)
Theorem exponent_rendering_without_BigInt :
  let w := holding "userId" "0.0000001" in
  Storage_getItem
    (storage (after (TypedStorage.setItem (rt := ecma) defaults "userId"
                       (JString "0.0000001") (new_World (new_Storage unlimited)))))
    "userId" = Some "0.0000001"
  /\ starts_structured "0.0000001" = false
  /\ all_numeric "0.0000001"
  /\ String_includes
       (Number_toString (JsRuntime := ecma) (Number_of_string "0.0000001")) "e" = true
  /\ TypedStorage.getItem (rt := ecma) defaults "userId" w
     = (Throw (SyntaxError "Cannot convert 0.0000001 to a BigInt"), w)
  /\ (forall z, outcome (TypedStorage.getItem (rt := ecma) defaults "userId" w)
                ≠ Normal (JBigInt z))
  /\ outcome (TypedStorage.getItem (rt := ecma) defaults "shoppingCart"
                (holding "shoppingCart" "{abc"))
     = Normal (JString "{abc").
Proof.
  assert (Hget : TypedStorage.getItem (rt := ecma) defaults "userId"
                   (holding "userId" "0.0000001")
                 = (Throw (SyntaxError "Cannot convert 0.0000001 to a BigInt"),
                    holding "userId" "0.0000001")).
  { rewrite (getItem_parse _ _ "0.0000001"), parse_numeric; try done.
    by apply (bool_decide_unpack _). }
  cbv zeta. split; [by vm_compute|]. split; [by vm_compute|].
  split; [by apply (bool_decide_unpack _)|].
  split; [by vm_compute|]. split; [exact Hget|]. split.
  - intros z. by rewrite Hget.
  - rewrite (getItem_parse _ _ "{abc"), parse_structured by done.
    by vm_compute.
Qed.

(** C10.  With the built-ins of ECMA-262, default deserialization is not
    total.  Every character of "0.0000001" is in the numeric character set,
    the Number it denotes is rendered with an exponent marker, and [BigInt]
    throws a SyntaxError on it: [getItem] on a key without override that
    holds this text throws that error, which is neither the unsupported-type
    error nor the storage's.  The empty text passes the scan of the
    characters too, and is read back as the Number 0. *)
Theorem default_deserialization_not_total :
  (all_numeric "0.0000001"
   /\ Number_toString (JsRuntime := ecma) (Number_of_string "0.0000001") = "1e-7"
   /\ String_includes (Number_toString (JsRuntime := ecma) (Number_of_string "0.0000001")) "e" = true
   /\ exists e,
        BigInt_of_string (JsRuntime := ecma) "0.0000001" = Throw e
        /\ ~ in_taxonomy e
        /\ forall (serialization : Serialization) (key : string) (w : World),
             serialization !! key ≫= deserialize = None ->
             Storage_getItem (storage w) key = Some "0.0000001" ->
             TypedStorage.getItem (rt := ecma) serialization key w = (Throw e, w))
  /\ (all_numeric ""
      /\ forall (serialization : Serialization) (key : string) (w : World),
           serialization !! key ≫= deserialize = None ->
           Storage_getItem (storage w) key = Some "" ->
           TypedStorage.getItem (rt := ecma) serialization key w
             = (Normal (JNumber (S754_zero false)), w)).
Proof.
  split; [split; [|split; [|split]]|split].
  - by apply scan_all_numeric.
  - by vm_compute.
  - by vm_compute.
  - exists (SyntaxError "Cannot convert 0.0000001 to a BigInt").
    split; [by vm_compute|]. split.
    + by intros [?|[? ?]].
    + intros serialization key w Hnone Hraw.
      rewrite (getItem_parse _ _ "0.0000001"), parse_numeric; try done.
      by apply scan_all_numeric.
  - by apply scan_all_numeric.
  - intros serialization key w Hnone Hraw.
    rewrite (getItem_parse _ _ ""), parse_numeric; try done.
    by apply scan_all_numeric.
Qed.

(** C4, as amended.  On a key without override, a string that default
    deserialization reads as text (it has a character outside the numeric
    character set and begins with neither a brace nor a bracket, or it begins
    with one and is not JSON) is read back identical after a write that
    succeeded, and so is an object or an array that [JSON.stringify] and
    [JSON.parse] carry to text and back.  With the built-ins of ECMA-262 the
    latter holds of every array and object of JSON data: null, booleans,
    strings, Numbers whose rendering reads back as themselves, arrays, and
    objects with distinct keys that are not array indices. *)
Theorem round_trip :
  (forall (rt : JsRuntime) (serialization : Serialization) (key : string)
          (value : JsValue) (w : World),
     serialization !! key ≫= serialize = None ->
     serialization !! key ≫= deserialize = None ->
     outcome (TypedStorage.setItem serialization key value w) = Normal tt ->
     (forall text, value = JString text -> read_as_text text ->
        outcome (TypedStorage.getItem serialization key
                   (after (TypedStorage.setItem serialization key value w)))
        = Normal value)
     /\ (is_structure value = true -> JSON_encodable value ->
         outcome (TypedStorage.getItem serialization key
                    (after (TypedStorage.setItem serialization key value w)))
         = Normal value))
  /\ (forall (serialization : Serialization) (key : string) (value : JsValue)
             (w : World),
        serialization !! key ≫= serialize = None ->
        serialization !! key ≫= deserialize = None ->
        outcome (TypedStorage.setItem (rt := ecma) serialization key value w)
          = Normal tt ->
        is_structure value = true ->
        json_data value = true ->
        outcome (TypedStorage.getItem (rt := ecma) serialization key
                   (after (TypedStorage.setItem (rt := ecma) serialization key
                             value w)))
        = Normal value).
Proof.
  assert (Hany : forall (rt : JsRuntime) (serialization : Serialization)
                   (key : string) (value : JsValue) (w : World),
             serialization !! key ≫= serialize = None ->
             serialization !! key ≫= deserialize = None ->
             outcome (TypedStorage.setItem serialization key value w) = Normal tt ->
             (forall text, value = JString text -> read_as_text text ->
                outcome (TypedStorage.getItem serialization key
                           (after (TypedStorage.setItem serialization key value w)))
                = Normal value)
             /\ (is_structure value = true -> JSON_encodable value ->
                 outcome (TypedStorage.getItem serialization key
                            (after (TypedStorage.setItem serialization key value w)))
                 = Normal value)).
  { intros rt serialization key value w Hser Hdes Hwritten.
    assert (Hstored : forall encoded,
               TypedStorage.toStorageString value = Normal encoded ->
               Storage_getItem
                 (storage (after (TypedStorage.setItem serialization key value w)))
                 key
               = Some (DOMString encoded)).
    { intros encoded Henc. revert Hwritten.
      rewrite setItem_serialized, serialized_default, Henc by done.
      unfold storage_setItem, Storage_setItem.
      destruct (accepts _ _ _ _); [|discriminate]. intros _.
      unfold Storage_getItem; simpl. apply lookup_insert_eq. }
    split.
    - intros text -> Hread.
      rewrite (getItem_parse _ _ text); [|done|by apply (Hstored (Some text))].
      unfold read_as_text in Hread.
      destruct (starts_structured text) eqn:Hs.
      + rewrite parse_structured by done. by destruct (JSON_parse text).
      + by rewrite parse_text.
    - intros Hstruct (encoded & Henc & Hdec).
      assert (Hto : TypedStorage.toStorageString value = Normal (Some encoded))
        by (by destruct value).
      rewrite (getItem_parse _ _ encoded);
        [|done|by apply (Hstored (Some encoded))].
      rewrite parse_structured by (by eapply JSON_stringify_structure).
      by rewrite Hdec. }
  split; [exact Hany|].
  intros serialization key value w Hser Hdes Hwritten Hstruct Hdata.
  apply (Hany ecma); try done. by apply json_data_encodable.
Qed.

(** ** [TypedStorage]: the claims evaluated *)

Lemma getItem_absent_returns_null_witness :
  TypedStorage.getItem (rt := ecma) float_as_text "floatValue"
    (new_World (new_Storage unlimited))
  = (Normal JNull, new_World (new_Storage unlimited))
  /\ (let w := after (TypedStorage.removeItem "JWT" (holding "JWT" "abc")) in
      TypedStorage.getItem (rt := ecma) defaults "JWT" w = (Normal JNull, w)).
Proof.
  split.
  - apply (getItem_absent_returns_null (rt := ecma)). reflexivity.
  - apply (getItem_absent_returns_null (rt := ecma)). apply removeItem_absent.
Defined.

Lemma override_precedence_witness :
  (let w := new_World (new_Storage unlimited) in
   TypedStorage.setItem (rt := ecma) float_as_text "floatValue" JUndefined w
   = storage_setItem "floatValue" "kept" w)
  /\ (let w := holding "floatValue" "42" in
      TypedStorage.getItem (rt := ecma) float_as_text "floatValue" w
      = (Normal (JString "42"), w)).
Proof.
  split.
  - apply (proj1 (override_precedence (rt := ecma) float_as_text "floatValue"
                    (new_World (new_Storage unlimited)))
             (fun value => Normal "kept") JUndefined).
    reflexivity.
  - apply (proj2 (override_precedence (rt := ecma) float_as_text "floatValue"
                    (holding "floatValue" "42"))
             (fun raw => Normal (JString raw)) "42").
    + reflexivity.
    + reflexivity.
Defined.



Lemma default_deserialization_not_total_witness :
  (let w := holding "userId" "0.0000001" in
   exists e, TypedStorage.getItem (rt := ecma) defaults "userId" w = (Throw e, w)
             /\ ~ in_taxonomy e)
  /\ (let w := holding "JWT" "" in
      TypedStorage.getItem (rt := ecma) defaults "JWT" w
      = (Normal (JNumber (S754_zero false)), w)).
Proof.
  split.
  - destruct (proj1 default_deserialization_not_total)
      as (_ & _ & _ & e & _ & Hout & Hget).
    exists e. split; [|exact Hout].
    apply (Hget defaults "userId" (holding "userId" "0.0000001") eq_refl eq_refl).
  - apply (proj2 (proj2 default_deserialization_not_total) defaults "JWT"
             (holding "JWT" "") eq_refl eq_refl).
Defined.

Lemma round_trip_witness :
  (let w := new_World (new_Storage unlimited) in
   outcome (TypedStorage.getItem (rt := ecma) defaults "JWT"
              (after (TypedStorage.setItem (rt := ecma) defaults "JWT" (JString "abc123") w)))
   = Normal (JString "abc123"))
  /\ (let w := new_World (new_Storage unlimited) in
      outcome (TypedStorage.getItem (rt := ecma) defaults "shoppingCart"
                 (after (TypedStorage.setItem (rt := ecma) defaults "shoppingCart" cart w)))
      = Normal cart).
Proof.
  split.
  - apply (proj1 (proj1 round_trip ecma defaults "JWT" (JString "abc123")
                    (new_World (new_Storage unlimited)) eq_refl eq_refl eq_refl)
             "abc123" eq_refl).
    by apply (bool_decide_unpack _).
  - apply (proj2 round_trip defaults "shoppingCart" cart
             (new_World (new_Storage unlimited)) eq_refl eq_refl).
    + by vm_compute.
    + reflexivity.
    + by vm_compute.
Defined.

(** C4, as stated, fails at the string "42": it is written as it is and read
    back as the Number 42. *)
Lemma numeric_text_read_back_as_number :
  let w := new_World (new_Storage unlimited) in
  outcome (TypedStorage.setItem (rt := ecma) defaults "JWT" (JString "42") w) = Normal tt
  /\ Storage_getItem
       (storage (after (TypedStorage.setItem (rt := ecma) defaults "JWT" (JString "42") w)))
       "JWT" = Some "42"
  /\ outcome (TypedStorage.getItem (rt := ecma) defaults "JWT"
                (after (TypedStorage.setItem (rt := ecma) defaults "JWT" (JString "42") w)))
     = Normal (JNumber (number_of_Z 42))
  /\ outcome (TypedStorage.getItem (rt := ecma) defaults "JWT"
                (after (TypedStorage.setItem (rt := ecma) defaults "JWT" (JString "42") w)))
     ≠ Normal (JString "42").
Proof.
  cbv zeta. split; [by vm_compute|]. split; [by vm_compute|].
  split; [by vm_compute|]. by vm_compute.
Qed.

(** ** [LiveStorage]: what a call and a queued callback change *)

Section Live.
Context `{rt : JsRuntime}.
Variable serialization : Serialization.

Lemma LiveStorage_setItem_super (key : string) (value : JsValue) (w : World) :
  LiveStorage.setItem serialization key value w
  = TypedStorage.setItem serialization key value (scheduled key value w).
Proof. reflexivity. Qed.

Lemma TypedStorage_setItem_cases (key : string) (value : JsValue) (w : World) :
  TypedStorage.setItem serialization key value w =
    match serialized serialization key value with
    | Normal text =>
      match Storage_setItem (storage w) key (DOMString text) with
      | Normal st => (Normal tt, set_storage st w)
      | Throw e => (Throw e, w)
      end
    | Throw e => (Throw e, w)
    end.
Proof. by rewrite setItem_serialized. Qed.

Lemma LiveStorage_setItem_frame (key : string) (value : JsValue) (w : World) :
  let w' := after (LiveStorage.setItem serialization key value w) in
  Emitter w' = Emitter w
  /\ effectedKeys w' = Set_add (effectedKeys w) key
  /\ microtasks w' = microtasks w ++ [EmitJob key value]
  /\ deliveries w' = deliveries w
  /\ console w' = console w.
Proof.
  rewrite LiveStorage_setItem_super, TypedStorage_setItem_cases.
  destruct (serialized _ _ _); [|done].
  by destruct (Storage_setItem _ _ _).
Qed.

Lemma parse_frame (key raw : string) (w : World) :
  let w' := after (TypedStorage.parse key raw w) in
  storage w' = storage w
  /\ Emitter w' = Emitter w
  /\ effectedKeys w' = effectedKeys w
  /\ microtasks w' = microtasks w
  /\ deliveries w' = deliveries w.
Proof.
  cbv zeta. unfold TypedStorage.parse.
  destruct (_ || _).
  - unfold try_catch, lift. by destruct (JSON_parse raw).
  - destruct (negb _); [done|]. destruct (String_includes _ _); [|done].
    unfold mbind, M_bind, lift. by destruct (BigInt_of_string raw).
Qed.

Lemma getItem_frame (key : string) (w : World) :
  let w' := after (TypedStorage.getItem serialization key w) in
  storage w' = storage w
  /\ Emitter w' = Emitter w
  /\ effectedKeys w' = effectedKeys w
  /\ microtasks w' = microtasks w
  /\ deliveries w' = deliveries w.
Proof.
  cbv zeta.
  destruct (Storage_getItem (storage w) key) as [raw|] eqn:Hraw.
  - destruct (serialization !! key ≫= deserialize) as [g|] eqn:Hg.
    + by rewrite (getItem_deserializer _ _ raw g).
    + rewrite (getItem_parse _ _ raw) by done. apply parse_frame.
  - by rewrite getItem_absent_world.
Qed.

Lemma for_of_emit (keys : list string) (value : JsValue) (w : World) :
  LiveStorage.for_of keys (fun key => LiveStorage.emit key value) w
  = (Normal tt,
     match keys with
     | [] => w
     | _ => set_deliveries
              (deliveries w
               ++ concat (map (fun key => Emitter_emit (Emitter w) key value) keys)) w
     end).
Proof.
  revert w. induction keys as [|key rest IH]; intros w; [done|].
  cbn [LiveStorage.for_of]. unfold mbind at 1, M_bind. cbn [LiveStorage.emit update].
  rewrite IH. destruct rest as [|key' rest]; simpl.
  - by rewrite app_nil_r.
  - by rewrite <- !app_assoc.
Qed.

Lemma run_job_frame (job : Job) (w : World) :
  let w' := after (LiveStorage.run_job job w) in
  storage w' = storage w
  /\ Emitter w' = Emitter w
  /\ effectedKeys w' = effectedKeys w
  /\ microtasks w' = microtasks w
  /\ console w' = console w.
Proof.
  destruct job as [key value|]; simpl; [done|].
  rewrite for_of_emit. by destruct (effectedKeys w) eqn:Hkeys.
Qed.

Lemma run_jobs_frame (queue : list Job) (w : World) :
  let w' := LiveStorage.run_jobs queue w in
  storage w' = storage w
  /\ Emitter w' = Emitter w
  /\ effectedKeys w' = effectedKeys w
  /\ microtasks w' = microtasks w
  /\ console w' = console w.
Proof.
  revert w. induction queue as [|job rest IH]; intros w; simpl; [done|].
  destruct (IH (after (LiveStorage.run_job job w))) as (-> & -> & -> & -> & ->).
  apply run_job_frame.
Qed.

Lemma run_jobs_app (first second : list Job) (w : World) :
  LiveStorage.run_jobs (first ++ second) w
  = LiveStorage.run_jobs second (LiveStorage.run_jobs first w).
Proof.
  revert w. induction first as [|job rest IH]; intros w; simpl; [done|].
  apply IH.
Qed.

(** A call other than [setItem] adds no key, and only adds to the queue. *)
Lemma perform_keeps_no_keys (call : Call) (w : World) :
  is_SetItem call = false ->
  effectedKeys w = [] ->
  effectedKeys (after (perform serialization call w)) = []
  /\ exists queued,
       microtasks (after (perform serialization call w)) = microtasks w ++ queued.
Proof.
  intros Hcall Hkeys. destruct call as [| key | key | | key cb | key id];
    try discriminate; simpl.
  - unfold mbind, M_bind. unfold LiveStorage.getItem.
    destruct (getItem_frame key w) as (_ & _ & Hk & Hq & _).
    destruct (TypedStorage.getItem serialization key w) as [[v|e] w']; simpl in *;
      rewrite Hk, Hq; (split; [done|]); exists []; by rewrite app_nil_r.
  - rewrite Hkeys. split; [done|]. by exists [EmitJob key JNull].
  - split; [done|]. by exists [ClearJob].
  - split; [done|]. exists []. by rewrite app_nil_r.
  - split; [done|]. exists []. by rewrite app_nil_r.
Qed.

Lemma run_calls_keeps_no_keys (calls : list Call) (w : World) :
  Forall (fun call => is_SetItem call = false) calls ->
  effectedKeys w = [] ->
  effectedKeys (run_calls serialization calls w) = []
  /\ exists queued,
       microtasks (run_calls serialization calls w) = microtasks w ++ queued.
Proof.
  intros Hcalls. revert w.
  induction Hcalls as [|call rest Hcall Hrest IH]; intros w Hkeys; simpl.
  - split; [done|]. exists []. by rewrite app_nil_r.
  - destruct (perform_keeps_no_keys call w Hcall Hkeys) as (Hk & q1 & Hq1).
    destruct (IH _ Hk) as (Hk' & q2 & Hq2).
    split; [done|]. exists (q1 ++ q2). by rewrite Hq2, Hq1, app_assoc.
Qed.

End Live.

(** ** [LiveStorage]: the claims *)

(** C9.  When the storage rejects the write of [LiveStorage.setItem], the
    call throws the storage's error and nothing is stored, but the callback
    that emits the key with the new value is already in the queue, behind
    those queued before, and the key is already in [effectedKeys]: at the
    microtask checkpoint the subscribers of the key are called with the value
    that was not stored. *)
Theorem rejected_write_still_notifies `{rt : JsRuntime}
    (serialization : Serialization) (key : string) (value : JsValue)
    (text : option string) (w : World) :
  serialized serialization key value = Normal text ->
  accepts (storage w) (items (storage w)) key (DOMString text) = false ->
  let w' := after (LiveStorage.setItem serialization key value w) in
  outcome (LiveStorage.setItem serialization key value w) = Throw QuotaExceededError
  /\ storage w' = storage w
  /\ key ∈ effectedKeys w'
  /\ microtasks w' = microtasks w ++ [EmitJob key value]
  /\ deliveries w' = deliveries w
  /\ deliveries (LiveStorage.run_microtasks w')
     = deliveries (LiveStorage.run_jobs (microtasks w) (set_microtasks [] w'))
       ++ map (fun l => {| receiver := l.2; payload := value |})
              (listeners_of (Emitter w) key).
Proof.
  intros Hser Hno. cbv zeta.
  assert (Hset : LiveStorage.setItem serialization key value w
                 = (Throw QuotaExceededError, scheduled key value w)).
  { rewrite LiveStorage_setItem_super, TypedStorage_setItem_cases, Hser.
    unfold Storage_setItem. simpl. by rewrite Hno. }
  rewrite Hset. unfold outcome, after; simpl.
  split; [done|]. split; [done|]. split.
  { unfold Set_add, Set_has. case_bool_decide; [done|]. set_solver. }
  split; [done|]. split; [done|].
  unfold LiveStorage.run_microtasks; simpl.
  rewrite run_jobs_app; simpl.
  destruct (run_jobs_frame (microtasks w)
              (set_microtasks [] (scheduled key value w))) as (_ & -> & _).
  done.
Qed.

(** C2.  Two calls of [setItem] on the same key, made one after the other
    in the same synchronous code, with one subscriber on the key and nothing
    else queued: when the second returns the subscriber has not been called,
    the queue holds one callback for each value, in the order of the calls,
    and the microtask checkpoint calls the subscriber twice, with the first
    value and then with the second.  Whether the writes were accepted plays no
    part. *)
Theorem writes_delivered_in_order `{rt : JsRuntime}
    (serialization : Serialization) (key id : string) (cb : Callback)
    (v1 v2 : JsValue) (w : World) :
  listeners_of (Emitter w) key = [(id, cb)] ->
  microtasks w = [] ->
  let w1 := after (LiveStorage.setItem serialization key v1 w) in
  let w2 := after (LiveStorage.setItem serialization key v2 w1) in
  deliveries w1 = deliveries w
  /\ deliveries w2 = deliveries w
  /\ microtasks w2 = [EmitJob key v1; EmitJob key v2]
  /\ deliveries (LiveStorage.run_microtasks w2)
     = deliveries w ++ [ {| receiver := cb; payload := v1 |};
                         {| receiver := cb; payload := v2 |} ].
Proof.
  intros Hone Hqueue. cbv zeta.
  destruct (LiveStorage_setItem_frame serialization key v1 w)
    as (He1 & _ & Hq1 & Hd1 & _).
  destruct (LiveStorage_setItem_frame serialization key v2
              (after (LiveStorage.setItem serialization key v1 w)))
    as (He2 & _ & Hq2 & Hd2 & _).
  rewrite Hq1, Hqueue in Hq2. simpl in Hq2. rewrite Hd1 in Hd2. rewrite He1 in He2.
  split; [done|]. split; [done|]. split; [done|].
  unfold LiveStorage.run_microtasks. rewrite Hq2. simpl.
  unfold Emitter_emit. rewrite He2, Hd2, Hone. simpl. by rewrite <- app_assoc.
Qed.

(** C1, as amended.  [clear] delivers nothing while it runs, leaves
    [effectedKeys] empty and its callback at the back of the queue.  If the
    synchronous code makes no [setItem] call after it, then at the microtask
    checkpoint the callbacks queued before [clear] run first, the callback of
    [clear] then finds [effectedKeys] empty, and running it changes nothing:
    no subscriber is called.  The world [w] is any world, in particular one
    reached by [setItem] calls. *)
Theorem clear_delivers_nothing `{rt : JsRuntime}
    (serialization : Serialization) (later : list Call) (w : World) :
  Forall (fun call => is_SetItem call = false) later ->
  let w1 := after (LiveStorage.clear w) in
  let w2 := run_calls serialization later w1 in
  effectedKeys w1 = []
  /\ deliveries w1 = deliveries w
  /\ microtasks w1 = microtasks w ++ [ClearJob]
  /\ exists queued,
       microtasks w2 = microtasks w ++ ClearJob :: queued
       /\ let w3 := LiveStorage.run_jobs (microtasks w) (set_microtasks [] w2) in
          LiveStorage.run_microtasks w2 = LiveStorage.run_jobs (ClearJob :: queued) w3
          /\ effectedKeys w3 = []
          /\ after (LiveStorage.run_job ClearJob w3) = w3.
Proof.
  intros Hlater. cbv zeta.
  split; [done|]. split; [done|]. split; [done|].
  set (w1 := after (LiveStorage.clear w)).
  assert (Hq1 : microtasks w1 = microtasks w ++ [ClearJob]) by done.
  destruct (run_calls_keeps_no_keys serialization later w1 Hlater eq_refl)
    as (Hkeys & queued & Hq).
  set (w2 := run_calls serialization later w1) in *.
  exists queued. rewrite Hq1, <- app_assoc in Hq.
  split; [exact Hq|].
  destruct (run_jobs_frame (microtasks w) (set_microtasks [] w2))
    as (_ & _ & Hk3 & _).
  change (effectedKeys (set_microtasks [] w2)) with (effectedKeys w2) in Hk3.
  rewrite Hkeys in Hk3.
  split; [|split; [exact Hk3|]].
  - unfold LiveStorage.run_microtasks. by rewrite Hq, run_jobs_app.
  - unfold LiveStorage.run_job. by rewrite Hk3.
Qed.

(** ** [LiveStorage]: the claims evaluated *)

Lemma rejected_write_still_notifies_witness :
  let w := subscribed exhausted "x" in
  let w' := after (LiveStorage.setItem (rt := ecma) defaults "x" one w) in
  outcome (LiveStorage.setItem (rt := ecma) defaults "x" one w)
    = Throw QuotaExceededError
  /\ items (storage w') = ∅
  /\ effectedKeys w' = ["x"]
  /\ deliveries (LiveStorage.run_microtasks w')
     = [ {| receiver := "render"; payload := one |} ].
Proof.
  destruct (rejected_write_still_notifies (rt := ecma) defaults "x" one (Some "1")
              (subscribed exhausted "x")) as (Hthrow & Hst & _ & _ & _ & Hrun).
  - by vm_compute.
  - reflexivity.
  - cbv zeta. split; [exact Hthrow|]. split; [by rewrite Hst|].
    split; [by vm_compute|]. rewrite Hrun. by vm_compute.
Defined.

Lemma writes_delivered_in_order_witness :
  let w := subscribed unlimited "x" in
  let w1 := after (LiveStorage.setItem (rt := ecma) defaults "x" one w) in
  let w2 := after (LiveStorage.setItem (rt := ecma) defaults "x" two w1) in
  deliveries w2 = []
  /\ deliveries (LiveStorage.run_microtasks w2)
     = [ {| receiver := "render"; payload := one |};
         {| receiver := "render"; payload := two |} ].
Proof.
  destruct (writes_delivered_in_order (rt := ecma) defaults "x" "0" "render" one two
              (subscribed unlimited "x")) as (_ & Hsync & _ & Hrun).
  - by vm_compute.
  - reflexivity.
  - cbv zeta. split; [exact Hsync|exact Hrun].
Defined.

Lemma clear_delivers_nothing_witness :
  let w2 := run_calls (rt := ecma) defaults [RemoveItem "c"]
              (after (LiveStorage.clear written)) in
  effectedKeys written = ["a"; "b"]
  /\ microtasks w2
     = [EmitJob "a" one; EmitJob "b" two; ClearJob; EmitJob "c" JNull]
  /\ deliveries (LiveStorage.run_microtasks w2)
     = [ {| receiver := "render"; payload := one |};
         {| receiver := "render"; payload := two |} ].
Proof.
  destruct (clear_delivers_nothing (rt := ecma) defaults [RemoveItem "c"] written)
    as (_ & _ & _ & queued & Hq & Hrun & Hkeys & Hsame).
  - repeat constructor.
  - cbv zeta. split; [by vm_compute|]. split; [by vm_compute|].
    cbv zeta in Hrun. rewrite Hrun. cbn [LiveStorage.run_jobs]. rewrite Hsame.
    assert (queued = [EmitJob "c" JNull]) as ->.
    { apply (app_inv_head (microtasks written ++ [ClearJob])).
      rewrite <- app_assoc. simpl. rewrite <- Hq. by vm_compute. }
    by vm_compute.
Defined.

(** C1, as stated, fails when [setItem] is called after [clear] in the same
    synchronous code: [setItem("a", 1)], [clear()], [setItem("b", 2)], with a
    subscriber on ["b"].  The callback of [clear] runs second, finds ["b"] in
    [effectedKeys], and calls the subscriber with [null]. *)
Lemma clear_then_setItem_notifies :
  let w2 := run_calls (rt := ecma) defaults
              [On "b" "render"; SetItem "a" one; Clear; SetItem "b" two]
              (new_World (new_Storage unlimited)) in
  let w3 := LiveStorage.run_jobs [EmitJob "a" one] (set_microtasks [] w2) in
  microtasks w2 = [EmitJob "a" one; ClearJob; EmitJob "b" two]
  /\ effectedKeys w3 = ["b"]
  /\ deliveries w3 = []
  /\ deliveries (after (LiveStorage.run_job ClearJob w3))
     = [ {| receiver := "render"; payload := JNull |} ]
  /\ deliveries
       (turn (rt := ecma) defaults
          [On "b" "render"; SetItem "a" one; Clear; SetItem "b" two]
          (new_World (new_Storage unlimited)))
     = [ {| receiver := "render"; payload := JNull |};
         {| receiver := "render"; payload := two |} ].
Proof.
  cbv zeta. split; [by vm_compute|]. split; [by vm_compute|].
  split; [by vm_compute|]. split; by vm_compute.
Qed.

(** * Further properties of the two classes *)

(** ** The queue of a turn *)

Section Turn.
Context `{rt : JsRuntime}.
Variable serialization : Serialization.

Lemma perform_schedules (call : Call) (w : World) :
  microtasks (after (perform serialization call w)) = microtasks w ++ job_of call
  /\ deliveries (after (perform serialization call w)) = deliveries w.
Proof.
  destruct call as [key value|key|key| |key cb|key id]; cbn [perform job_of].
  - destruct (LiveStorage_setItem_frame serialization key value w)
      as (_ & _ & Hq & Hd & _). by rewrite Hq, Hd.
  - unfold mbind, M_bind, LiveStorage.getItem.
    destruct (getItem_frame serialization key w) as (_ & _ & _ & Hq & Hd).
    destruct (TypedStorage.getItem serialization key w) as [[v|e] w'];
      cbn in *; by rewrite Hq, Hd, app_nil_r.
  - done.
  - done.
  - cbn. by rewrite app_nil_r.
  - cbn. by rewrite app_nil_r.
Qed.

Lemma run_calls_schedules (calls : list Call) (w : World) :
  microtasks (run_calls serialization calls w)
  = microtasks w ++ concat (map job_of calls)
  /\ deliveries (run_calls serialization calls w) = deliveries w.
Proof.
  revert w. induction calls as [|call calls IH]; intros w; cbn [run_calls map concat].
  - by rewrite app_nil_r.
  - destruct (IH (after (perform serialization call w))) as [-> ->].
    destruct (perform_schedules call w) as [-> ->]. by rewrite app_assoc.
Qed.

Lemma run_job_notifies (job : Job) (w : World) :
  deliveries (after (LiveStorage.run_job job w))
  = deliveries w ++ notifications (Emitter w) (effectedKeys w) job.
Proof.
  destruct job as [key value|]; [done|].
  cbn [LiveStorage.run_job notifications]. rewrite for_of_emit.
  destruct (effectedKeys w); [|done]. cbn. by rewrite app_nil_r.
Qed.

Lemma run_jobs_notifies (queue : list Job) (w : World) :
  deliveries (LiveStorage.run_jobs queue w)
  = deliveries w
    ++ concat (map (notifications (Emitter w) (effectedKeys w)) queue).
Proof.
  revert w. induction queue as [|job queue IH]; intros w;
    cbn [LiveStorage.run_jobs map concat].
  - by rewrite app_nil_r.
  - rewrite IH, run_job_notifies.
    destruct (run_job_frame job w) as (_ & -> & -> & _). by rewrite app_assoc.
Qed.

(** What the microtask checkpoint delivers, and what it leaves alone. *)
Lemma run_microtasks_notifies (w : World) :
  let w' := LiveStorage.run_microtasks w in
  deliveries w'
  = deliveries w
    ++ concat (map (notifications (Emitter w) (effectedKeys w)) (microtasks w))
  /\ microtasks w' = []
  /\ storage w' = storage w
  /\ Emitter w' = Emitter w
  /\ effectedKeys w' = effectedKeys w
  /\ console w' = console w.
Proof.
  cbv zeta. unfold LiveStorage.run_microtasks.
  rewrite run_jobs_notifies.
  destruct (run_jobs_frame (microtasks w) (set_microtasks [] w))
    as (-> & -> & -> & -> & ->).
  done.
Qed.

Lemma turn_notifies (calls : list Call) (w : World) :
  let synced := run_calls serialization calls w in
  let ended := turn serialization calls w in
  deliveries ended
  = deliveries w
    ++ concat (map (notifications (Emitter synced) (effectedKeys synced))
                 (microtasks w ++ concat (map job_of calls)))
  /\ microtasks ended = []
  /\ storage ended = storage synced
  /\ Emitter ended = Emitter synced
  /\ effectedKeys ended = effectedKeys synced
  /\ console ended = console synced.
Proof.
  cbv zeta. unfold turn.
  destruct (run_microtasks_notifies (run_calls serialization calls w))
    as (-> & -> & -> & -> & -> & ->).
  by destruct (run_calls_schedules calls w) as [-> ->].
Qed.

End Turn.

(** X1.  Every call of [setItem], [removeItem] and [clear] hands exactly one
    callback to [afterCallStack]; [getItem], [on] and [off] hand none.  The
    queue after a run of calls is the queue before followed by those
    callbacks in the order of the calls (none is dropped or merged, whether
    or not a write succeeded), and no subscriber is called while the calls
    run. *)
Theorem calls_schedule_in_order `{rt : JsRuntime}
    (serialization : Serialization) (calls : list Call) (w : World) :
  microtasks (run_calls serialization calls w)
  = microtasks w ++ concat (map job_of calls)
  /\ deliveries (run_calls serialization calls w) = deliveries w.
Proof.
  revert w. induction calls as [|call calls IH]; intros w;
    cbn [run_calls map concat].
  - by rewrite app_nil_r.
  - destruct (IH (after (perform serialization call w))) as [-> ->].
    destruct (perform_schedules serialization call w) as [-> ->].
    by rewrite app_assoc.
Qed.

(** X2.  The deliveries of a turn.  At the microtask checkpoint each queued
    callback calls the subscribers its key has when the synchronous code
    has ended (and the callback of [clear] goes through the keys
    [effectedKeys] has then), in the order the callbacks were queued.  The
    checkpoint empties the queue and changes neither the storage, the
    subscriptions, [effectedKeys] nor the console. *)
Theorem turn_deliveries `{rt : JsRuntime}
    (serialization : Serialization) (calls : list Call) (w : World) :
  let synced := run_calls serialization calls w in
  let ended := turn serialization calls w in
  deliveries ended
  = deliveries w
    ++ concat (map (notifications (Emitter synced) (effectedKeys synced))
                 (microtasks w ++ concat (map job_of calls)))
  /\ microtasks ended = []
  /\ storage ended = storage synced
  /\ Emitter ended = Emitter synced
  /\ effectedKeys ended = effectedKeys synced
  /\ console ended = console synced.
Proof.
  cbv zeta. unfold turn.
  destruct (run_microtasks_notifies (run_calls serialization calls w))
    as (-> & -> & -> & -> & -> & ->).
  by destruct (run_calls_schedules serialization calls w) as [-> ->].
Qed.
(** ** Subscribing, unsubscribing and removing within a turn *)

Lemma listeners_of_on (em : EventEmitter) (topic : string) (cb : Callback) :
  listeners_of (Emitter_on em topic cb).2 topic
  = listeners_of em topic ++ [(identifier (nextID em), cb)].
Proof. unfold listeners_of; simpl. by rewrite lookup_insert_eq. Qed.

Lemma listeners_of_off (em : EventEmitter) (topic id : string) :
  listeners_of (Emitter_off em topic id) topic
  = filter (fun l => l.1 ≠ id) (listeners_of em topic).
Proof. unfold listeners_of at 1; simpl. by rewrite lookup_insert_eq. Qed.

Lemma filter_keeps_all {A} (P : A -> Prop) `{forall x, Decision (P x)} (l : list A) :
  (forall x, x ∈ l -> P x) -> filter P l = l.
Proof.
  induction l as [|x l IH]; intros Hall; [done|].
  rewrite filter_cons_True by (apply Hall; left).
  f_equal. apply IH. intros y Hy. apply Hall. by right.
Qed.

Lemma elem_of_Set_add (set : list string) (x y : string) :
  y ∈ Set_add set x <-> y ∈ set \/ y = x.
Proof.
  unfold Set_add, Set_has. case_bool_decide as Hin.
  - split; [by left|]. by intros [?| ->].
  - rewrite elem_of_app, list_elem_of_singleton. done.
Qed.

Lemma elem_of_Set_delete (set : list string) (x y : string) :
  y ∈ Set_delete set x <-> y ∈ set /\ y ≠ x.
Proof. unfold Set_delete. rewrite list_elem_of_filter. tauto. Qed.

Section Tracking.
Context `{rt : JsRuntime}.
Variable serialization : Serialization.

Lemma LiveStorage_removeItem_run (key : string) (w : World) :
  LiveStorage.removeItem key w
  = (Normal tt,
     set_storage (Storage_removeItem (storage w) key)
       (set_effectedKeys (Set_delete (effectedKeys w) key)
          (set_microtasks (microtasks w ++ [EmitJob key JNull]) w))).
Proof. reflexivity. Qed.

Lemma LiveStorage_clear_run (w : World) :
  LiveStorage.clear w
  = (Normal tt,
     set_storage (Storage_clear (storage w))
       (set_effectedKeys (Set_clear (effectedKeys w))
          (set_microtasks (microtasks w ++ [ClearJob]) w))).
Proof. reflexivity. Qed.

Lemma LiveStorage_on_run (key : string) (callback : Callback) (w : World) :
  LiveStorage.on key callback w
  = (Normal (identifier (nextID (Emitter w))),
     set_Emitter (Emitter_on (Emitter w) key callback).2 w).
Proof. reflexivity. Qed.

Lemma perform_On_after (key : string) (callback : Callback) (w : World) :
  after (perform serialization (On key callback) w)
  = set_Emitter (Emitter_on (Emitter w) key callback).2 w.
Proof. reflexivity. Qed.

Lemma perform_Off_after (key id : string) (w : World) :
  after (perform serialization (Off key id) w)
  = set_Emitter (Emitter_off (Emitter w) key id) w.
Proof. reflexivity. Qed.

Lemma perform_tracks (call : Call) (w : World) :
  stored_tracked w -> stored_tracked (after (perform serialization call w)).
Proof.
  intros Hinv.
  destruct call as [key value|key|key| |key cb|key id]; cbn [perform].
  - rewrite LiveStorage_setItem_super, TypedStorage_setItem_cases.
    assert (Hrest : stored_tracked (scheduled key value w)).
    { intros k Hk. apply elem_of_Set_add. left. by apply Hinv. }
    destruct (serialized _ _ _) as [text|e]; [|done].
    unfold Storage_setItem. destruct (accepts _ _ _ _); [|done].
    intros k. unfold Storage_getItem; cbn.
    destruct (decide (k = key)) as [->|Hne].
    + intros _. apply elem_of_Set_add. by right.
    + rewrite lookup_insert_ne by done. intros Hk.
      apply elem_of_Set_add. left. by apply Hinv.
  - unfold mbind, M_bind, LiveStorage.getItem.
    destruct (getItem_frame serialization key w) as (Hs & _ & Hk & _).
    destruct (TypedStorage.getItem serialization key w) as [[v|e] w'];
      cbn in *; intros k; rewrite Hs, Hk; apply Hinv.
  - rewrite LiveStorage_removeItem_run.
    intros k. unfold Storage_getItem; cbn.
    destruct (decide (k = key)) as [->|Hne].
    + rewrite lookup_delete_eq. by intros [? ?].
    + rewrite lookup_delete_ne by done. intros Hk.
      apply elem_of_Set_delete. split; [by apply Hinv|done].
  - rewrite LiveStorage_clear_run.
    intros k. unfold Storage_getItem; cbn. rewrite lookup_empty. by intros [? ?].
  - apply Hinv.
  - apply Hinv.
Qed.

Lemma run_calls_tracks (calls : list Call) (w : World) :
  stored_tracked w -> stored_tracked (run_calls serialization calls w).
Proof.
  revert w. induction calls as [|call calls IH]; intros w Hinv; [done|].
  cbn [run_calls]. apply IH. by apply perform_tracks.
Qed.

End Tracking.

(** X3.  [removeItem] never throws; it takes the key out of the storage
    and out of [effectedKeys], calls no subscriber itself, and at the end of
    the turn the subscribers of the key are called with [null] - whether or
    not the key was stored or had ever been written. *)
Theorem removeItem_notifies_null `{rt : JsRuntime}
    (serialization : Serialization) (key : string) (w : World) :
  microtasks w = [] ->
  let r := LiveStorage.removeItem key w in
  outcome r = Normal tt
  /\ Storage_getItem (storage (after r)) key = None
  /\ (key ∉ effectedKeys (after r))
  /\ deliveries (after r) = deliveries w
  /\ deliveries (turn serialization [RemoveItem key] w)
     = deliveries w ++ Emitter_emit (Emitter w) key JNull.
Proof.
  intros Hq. cbv zeta. split; [done|]. split; [apply removeItem_absent|].
  split; [|split; [done|]].
  - rewrite LiveStorage_removeItem_run. cbn.
    intros Hin. apply elem_of_Set_delete in Hin. by destruct Hin.
  - destruct (turn_notifies serialization [RemoveItem key] w) as (-> & _).
    rewrite Hq. cbn. by rewrite app_nil_r.
Qed.

(** X4.  A subscriber registered after a write, in the same synchronous
    code, is notified of that write: the callback queued by [setItem] looks
    the subscribers up when it runs, after [on] has registered the new
    one. *)
Theorem late_subscriber_is_notified `{rt : JsRuntime}
    (serialization : Serialization) (key : string) (value : JsValue)
    (callback : Callback) (w : World) :
  microtasks w = [] ->
  deliveries (turn serialization [SetItem key value; On key callback] w)
  = deliveries w
    ++ Emitter_emit (Emitter w) key value
    ++ [{| receiver := callback; payload := value |}].
Proof.
  intros Hq.
  destruct (turn_notifies serialization [SetItem key value; On key callback] w)
    as (-> & _).
  rewrite Hq. cbn [run_calls map concat job_of app notifications].
  rewrite !app_nil_r. f_equal.
  rewrite perform_On_after. cbn [Emitter set_Emitter perform].
  destruct (LiveStorage_setItem_frame serialization key value w) as (-> & _).
  unfold Emitter_emit. by rewrite listeners_of_on, map_app.
Qed.

(** X5.  A subscriber removed with [off] before the synchronous code ends
    is not notified of a write made while it was subscribed: with the
    identifier [on] returned, [on], [setItem], [off] in one turn deliver the
    value to the earlier subscribers of the key only.  (The identifier is
    taken to be fresh among the registrations of the key.) *)
Theorem unsubscribed_before_checkpoint `{rt : JsRuntime}
    (serialization : Serialization) (key : string) (value : JsValue)
    (callback : Callback) (id : string) (w : World) :
  microtasks w = [] ->
  outcome (LiveStorage.on key callback w) = Normal id ->
  (forall l, l ∈ listeners_of (Emitter w) key -> l.1 ≠ id) ->
  deliveries
    (turn serialization [On key callback; SetItem key value; Off key id] w)
  = deliveries w ++ Emitter_emit (Emitter w) key value.
Proof.
  intros Hq Hid Hfresh. rewrite LiveStorage_on_run in Hid. injection Hid as <-.
  destruct (turn_notifies serialization
              [On key callback; SetItem key value;
               Off key (identifier (nextID (Emitter w)))] w)
    as (-> & _).
  rewrite Hq. cbn [run_calls map concat job_of app notifications].
  rewrite !app_nil_r. f_equal.
  rewrite perform_Off_after, perform_On_after.
  cbn [Emitter set_Emitter perform].
  destruct (LiveStorage_setItem_frame serialization key value
              (set_Emitter (Emitter_on (Emitter w) key callback).2 w))
    as (-> & _).
  cbn [Emitter set_Emitter].
  unfold Emitter_emit. rewrite listeners_of_off, listeners_of_on.
  rewrite filter_app, filter_cons_False, filter_nil, app_nil_r by (cbn; tauto).
  by rewrite filter_keeps_all.
Qed.

(** X6.  If every key the storage holds is in [effectedKeys] (as when the
    store was constructed on an empty storage), this is still so after any
    run of calls and after the microtasks of the turn: [setItem] adds the
    key before it writes, [removeItem] and [clear] take out of the storage
    all they take out of the set. *)
Theorem stored_keys_are_tracked `{rt : JsRuntime}
    (serialization : Serialization) (calls : list Call) (w : World) :
  stored_tracked w ->
  stored_tracked (run_calls serialization calls w)
  /\ stored_tracked (turn serialization calls w).
Proof.
  intros Hinv. pose proof (run_calls_tracks serialization calls w Hinv) as Hrun.
  split; [done|].
  destruct (turn_notifies serialization calls w) as (_ & _ & Hs & _ & Hk & _).
  intros k. rewrite Hs, Hk. apply Hrun.
Qed.
(** ** Reading and writing, one after the other *)

Section Composition.
Context `{rt : JsRuntime}.
Variable serialization : Serialization.

Lemma parse_outcome_world (key raw : string) (w1 w2 : World) :
  outcome (TypedStorage.parse key raw w1) = outcome (TypedStorage.parse key raw w2).
Proof.
  unfold TypedStorage.parse.
  destruct (_ || _).
  - unfold try_catch, lift. by destruct (JSON_parse raw).
  - destruct (negb _); [done|]. destruct (String_includes _ _); [|done].
    unfold mbind, M_bind, lift. by destruct (BigInt_of_string raw).
Qed.

Lemma parse_console (key raw : string) (w : World) :
  console (after (TypedStorage.parse key raw w)) = console w
  \/ console (after (TypedStorage.parse key raw w)) = console w ++ [parse_warning].
Proof.
  unfold TypedStorage.parse.
  destruct (_ || _).
  - unfold try_catch, lift. destruct (JSON_parse raw); [by left|by right].
  - left. destruct (negb _); [done|]. destruct (String_includes _ _); [|done].
    unfold mbind, M_bind, lift. by destruct (BigInt_of_string raw).
Qed.

(** What [getItem] returns depends on the text the storage holds under
    the key, and on nothing else of the world. *)
Lemma getItem_outcome_storage (key : string) (w1 w2 : World) :
  Storage_getItem (storage w1) key = Storage_getItem (storage w2) key ->
  outcome (TypedStorage.getItem serialization key w1)
  = outcome (TypedStorage.getItem serialization key w2).
Proof.
  intros Hsame.
  destruct (Storage_getItem (storage w2) key) as [raw|] eqn:Hraw.
  - destruct (serialization !! key ≫= deserialize) as [g|] eqn:Hg.
    + by rewrite !(getItem_deserializer _ _ raw g).
    + rewrite !(getItem_parse _ _ raw) by done. apply parse_outcome_world.
  - by rewrite !getItem_absent_world.
Qed.

Lemma getItem_console (key : string) (w : World) :
  console (after (TypedStorage.getItem serialization key w)) = console w
  \/ console (after (TypedStorage.getItem serialization key w))
     = console w ++ [parse_warning].
Proof.
  destruct (Storage_getItem (storage w) key) as [raw|] eqn:Hraw.
  - destruct (serialization !! key ≫= deserialize) as [g|] eqn:Hg.
    + left. by rewrite (getItem_deserializer _ _ raw g).
    + rewrite (getItem_parse _ _ raw) by done. apply parse_console.
  - left. by rewrite getItem_absent_world.
Qed.

(** A write that succeeded has put the serialized text under the key, and
    left the other keys as they were. *)
Lemma setItem_stored (key : string) (value : JsValue) (w : World) :
  outcome (TypedStorage.setItem serialization key value w) = Normal tt ->
  exists text,
    serialized serialization key value = Normal text
    /\ storage (after (TypedStorage.setItem serialization key value w))
       = {| items := <[key := DOMString text]> (items (storage w));
            accepts := accepts (storage w) |}.
Proof.
  rewrite TypedStorage_setItem_cases.
  destruct (serialized _ _ _) as [text|e]; [|discriminate].
  unfold Storage_setItem. destruct (accepts _ _ _ _); [|discriminate].
  intros _. by exists text.
Qed.

Lemma setItem_thrown (key : string) (value : JsValue) (e : JsError) (w : World) :
  outcome (TypedStorage.setItem serialization key value w) = Throw e ->
  after (TypedStorage.setItem serialization key value w) = w.
Proof.
  rewrite TypedStorage_setItem_cases.
  destruct (serialized _ _ _) as [text|e']; [|done].
  by destruct (Storage_setItem _ _ _).
Qed.

Lemma setItem_other_key (key key' : string) (value : JsValue) (w : World) :
  key' ≠ key ->
  Storage_getItem (storage (after (TypedStorage.setItem serialization key value w))) key'
  = Storage_getItem (storage w) key'.
Proof.
  intros Hne. rewrite TypedStorage_setItem_cases.
  destruct (serialized _ _ _) as [text|e']; [|done].
  unfold Storage_setItem. destruct (accepts _ _ _ _); [|done].
  unfold Storage_getItem; cbn. by rewrite lookup_insert_ne.
Qed.

Lemma read_written (key : string) (value : JsValue) (w : World) :
  outcome (TypedStorage.setItem serialization key value w) = Normal tt ->
  exists text,
    serialized serialization key value = Normal text
    /\ Storage_getItem
         (storage (after (TypedStorage.setItem serialization key value w))) key
       = Some (DOMString text).
Proof.
  intros Hok. destruct (setItem_stored key value w Hok) as (text & Hser & Hst).
  exists text. split; [done|]. rewrite Hst. unfold Storage_getItem; cbn.
  apply lookup_insert_eq.
Qed.

End Composition.

Lemma all_numeric_not_structured (raw : string) :
  all_numeric raw -> starts_structured raw = false.
Proof.
  destruct raw as [|c rest]; [done|]. unfold all_numeric; cbn.
  rewrite Forall_cons. intros [Hc _].
  unfold starts_structured, String.prefix.
  destruct (ascii_dec "{" c) as [<-|_].
  { apply Set_has_numerics in Hc. by vm_compute in Hc. }
  destruct (ascii_dec "[" c) as [<-|_]; [|done].
  apply Set_has_numerics in Hc. by vm_compute in Hc.
Qed.

Lemma includes_e_not_numeric (text : string) :
  String_includes text "e" = true -> ~ all_numeric text.
Proof.
  unfold String_includes, all_numeric.
  induction text as [|c rest IH]; [done|].
  cbn [list_ascii_of_string]. rewrite Forall_cons. intros Hfound [Hc Hrest].
  cbn [index String.prefix] in Hfound.
  destruct (ascii_dec "e" c) as [<-|_].
  - apply Set_has_numerics in Hc. by vm_compute in Hc.
  - apply IH; [|done]. by destruct (index 0 "e" rest).
Qed.

(** X7.  [getItem] only reads: it leaves the storage, the subscriptions,
    [effectedKeys] and the queue as they were, calls no subscriber and
    queues nothing; the console gets at most the one warning of [parse].
    Reading again gives the same result. *)
Theorem getItem_only_reads `{rt : JsRuntime}
    (serialization : Serialization) (key : string) (w : World) :
  let r := LiveStorage.getItem serialization key w in
  storage (after r) = storage w
  /\ Emitter (after r) = Emitter w
  /\ effectedKeys (after r) = effectedKeys w
  /\ microtasks (after r) = microtasks w
  /\ deliveries (after r) = deliveries w
  /\ (console (after r) = console w
      \/ console (after r) = console w ++ [parse_warning])
  /\ outcome (LiveStorage.getItem serialization key (after r)) = outcome r.
Proof.
  cbv zeta. unfold LiveStorage.getItem.
  destruct (getItem_frame serialization key w) as (Hs & He & Hk & Hq & Hd).
  repeat split; try done.
  - apply getItem_console.
  - apply getItem_outcome_storage. by rewrite Hs.
Qed.

(** X8.  A write that throws stores nothing: [TypedStorage.setItem]
    leaves the world as it was, and after a [LiveStorage.setItem] that
    threw every key reads as it did before the call. *)
Theorem failed_write_stores_nothing `{rt : JsRuntime}
    (serialization : Serialization) (key : string) (value : JsValue)
    (e : JsError) (w : World) :
  outcome (LiveStorage.setItem serialization key value w) = Throw e ->
  after (TypedStorage.setItem serialization key value w) = w
  /\ storage (after (LiveStorage.setItem serialization key value w)) = storage w
  /\ forall key',
       outcome (LiveStorage.getItem serialization key'
                  (after (LiveStorage.setItem serialization key value w)))
       = outcome (LiveStorage.getItem serialization key' w).
Proof.
  intros Hthrow.
  assert (Hst : storage (after (LiveStorage.setItem serialization key value w))
                = storage w).
  { rewrite LiveStorage_setItem_super in *.
    by rewrite (setItem_thrown serialization key value e). }
  split; [|split; [done|]].
  - rewrite LiveStorage_setItem_outcome in Hthrow. by eapply setItem_thrown.
  - intros key'. apply getItem_outcome_storage. by rewrite Hst.
Qed.

(** X9.  On a key without a [deserialize] override, [getItem] throws in
    one case only: the stored text begins with neither a brace nor a
    bracket, all its characters are in the numeric character set, the
    Number it converts to is rendered with an "e", and [BigInt] throws on
    the text.  What is thrown is what [BigInt] threw. *)
Theorem default_read_throws_only_from_BigInt `{rt : JsRuntime}
    (serialization : Serialization) (key : string) (e : JsError) (w : World) :
  serialization !! key ≫= deserialize = None ->
  outcome (TypedStorage.getItem serialization key w) = Throw e
  <-> exists raw,
        Storage_getItem (storage w) key = Some raw
        /\ starts_structured raw = false
        /\ all_numeric raw
        /\ String_includes (Number_toString (Number_of_string raw)) "e" = true
        /\ BigInt_of_string raw = Throw e.
Proof.
  intros Hnone. split.
  - destruct (Storage_getItem (storage w) key) as [raw|] eqn:Hraw.
    2: { by rewrite getItem_absent_world. }
    rewrite (getItem_parse _ _ raw) by done.
    destruct (starts_structured raw) eqn:Hs.
    { rewrite parse_structured by done. by destruct (JSON_parse raw). }
    destruct (decide (all_numeric raw)) as [Hnum|Hnot].
    2: { by rewrite parse_text. }
    rewrite parse_numeric by done.
    destruct (String_includes _ _) eqn:He; [|done].
    destruct (BigInt_of_string raw) as [z|e'] eqn:Hz; [done|].
    cbn. intros [= <-]. by exists raw.
  - intros (raw & Hraw & Hs & Hnum & He & Hz).
    rewrite (getItem_parse _ _ raw), parse_numeric by done.
    by rewrite He, Hz.
Qed.

(** X10.  After a write that succeeded, a read of the key is the decoding
    of the text that was just serialized - by the [deserialize] override
    of the key if it has one, by [parse] otherwise - whatever the storage
    held under the key before. *)
Theorem read_after_write `{rt : JsRuntime}
    (serialization : Serialization) (key : string) (value : JsValue) (w : World) :
  outcome (TypedStorage.setItem serialization key value w) = Normal tt ->
  exists text,
    serialized serialization key value = Normal text
    /\ let w' := after (TypedStorage.setItem serialization key value w) in
       TypedStorage.getItem serialization key w'
       = match serialization !! key ≫= deserialize with
         | Some deserializer => (deserializer (DOMString text), w')
         | None => TypedStorage.parse key (DOMString text) w'
         end.
Proof.
  intros Hok. destruct (read_written serialization key value w Hok)
    as (text & Hser & Hraw).
  exists text. split; [done|]. cbv zeta.
  destruct (serialization !! key ≫= deserialize) as [g|] eqn:Hg.
  - by apply getItem_deserializer.
  - by apply getItem_parse.
Qed.

(** X11.  Writing or removing one key does not change what a read of
    another key returns, whether the write succeeds or throws. *)
Theorem other_keys_unaffected `{rt : JsRuntime}
    (serialization : Serialization) (key key' : string) (value : JsValue)
    (w : World) :
  key' ≠ key ->
  outcome (LiveStorage.getItem serialization key'
             (after (LiveStorage.setItem serialization key value w)))
  = outcome (LiveStorage.getItem serialization key' w)
  /\ outcome (LiveStorage.getItem serialization key'
                (after (LiveStorage.removeItem key w)))
     = outcome (LiveStorage.getItem serialization key' w).
Proof.
  intros Hne. split; apply getItem_outcome_storage.
  - rewrite LiveStorage_setItem_super. by rewrite setItem_other_key.
  - rewrite LiveStorage_removeItem_run. unfold Storage_getItem; cbn.
    by rewrite lookup_delete_ne.
Qed.

(** X12.  [clear] never throws; it empties the storage and
    [effectedKeys], queues one callback and calls no subscriber itself.
    After it, and after [removeItem] for the key removed, [getItem]
    returns [null] without running an override or [parse]. *)
Theorem cleared_keys_read_null `{rt : JsRuntime}
    (serialization : Serialization) (key : string) (w : World) :
  let cleared := after (LiveStorage.clear w) in
  let removed := after (LiveStorage.removeItem key w) in
  outcome (LiveStorage.clear w) = Normal tt
  /\ effectedKeys cleared = []
  /\ microtasks cleared = microtasks w ++ [ClearJob]
  /\ deliveries cleared = deliveries w
  /\ (forall key', LiveStorage.getItem serialization key' cleared
                   = (Normal JNull, cleared))
  /\ LiveStorage.getItem serialization key removed = (Normal JNull, removed).
Proof.
  cbv zeta. rewrite LiveStorage_clear_run.
  do 4 (split; [done|]). split.
  - intros key'. by apply getItem_absent_world.
  - apply getItem_absent_world. rewrite LiveStorage_removeItem_run.
    apply lookup_delete_eq.
Qed.

(** X13.  With a [serialize] and a [deserialize] override on the key such
    that the second reads back what the first wrote for the value, a write
    that succeeded followed by a read returns the value - also a value
    that default serialization refuses or default inference would read as
    something else. *)
Theorem override_round_trip `{rt : JsRuntime}
    (serialization : Serialization) (key : string) (value : JsValue)
    (f : JsValue -> Completion string) (g : string -> Completion JsValue)
    (w : World) :
  serialization !! key ≫= serialize = Some f ->
  serialization !! key ≫= deserialize = Some g ->
  (forall text, f value = Normal text -> g text = Normal value) ->
  outcome (TypedStorage.setItem serialization key value w) = Normal tt ->
  outcome (TypedStorage.getItem serialization key
             (after (TypedStorage.setItem serialization key value w)))
  = Normal value.
Proof.
  intros Hf Hg Hinverse Hok.
  destruct (read_written serialization key value w Hok) as (text & Hser & Hraw).
  rewrite (getItem_deserializer _ _ _ g _ Hg Hraw).
  unfold serialized in Hser. rewrite Hf in Hser.
  destruct (f value) as [written|] eqn:Hwritten; [|discriminate].
  injection Hser as <-. cbn. by apply Hinverse.
Qed.

(** X14.  On a key without override, a value that is not a string and
    that default serialization renders as a text having a character outside
    the numeric set (and beginning with neither a brace nor a bracket) is
    read back as that text, a string, not as the value.  This is so of the
    booleans and of the symbols, whatever the built-ins are. *)
Theorem rendered_value_read_as_text `{rt : JsRuntime}
    (serialization : Serialization) (key : string) (w : World) :
  serialization !! key ≫= serialize = None ->
  serialization !! key ≫= deserialize = None ->
  (forall value text,
     TypedStorage.toStorageString value = Normal (Some text) ->
     starts_structured text = false ->
     ~ all_numeric text ->
     outcome (TypedStorage.setItem serialization key value w) = Normal tt ->
     outcome (TypedStorage.getItem serialization key
                (after (TypedStorage.setItem serialization key value w)))
     = Normal (JString text))
  /\ (forall b : bool,
        outcome (TypedStorage.setItem serialization key (JBoolean b) w) = Normal tt ->
        outcome (TypedStorage.getItem serialization key
                   (after (TypedStorage.setItem serialization key (JBoolean b) w)))
        = Normal (JString (if b then "true" else "false")))
  /\ (forall description : string,
        outcome (TypedStorage.setItem serialization key (JSymbol description) w)
          = Normal tt ->
        outcome (TypedStorage.getItem serialization key
                   (after (TypedStorage.setItem serialization key
                             (JSymbol description) w)))
        = Normal (JString ("Symbol(" +:+ description +:+ ")"))).
Proof.
  intros Hser Hdes.
  assert (Hany : forall value text,
     TypedStorage.toStorageString value = Normal (Some text) ->
     starts_structured text = false ->
     ~ all_numeric text ->
     outcome (TypedStorage.setItem serialization key value w) = Normal tt ->
     outcome (TypedStorage.getItem serialization key
                (after (TypedStorage.setItem serialization key value w)))
     = Normal (JString text)).
  { intros value text Htext Hs Hnot Hok.
    destruct (read_written serialization key value w Hok) as (text' & Hser' & Hraw).
    rewrite serialized_default, Htext in Hser' by done. injection Hser' as <-.
    rewrite (getItem_parse _ _ text) by done. by rewrite parse_text. }
  split; [exact Hany|]. split.
  - intros b. apply Hany; destruct b; try done;
      by apply scan_not_numeric.
  - intros description. apply Hany; try done.
    by apply scan_not_numeric.
Qed.

(** X15.  A Number written on a key without override.  If its rendering
    has only characters of the numeric set and converts back to the same
    Number, the Number is read back.  If its rendering has another
    character (an exponent, or the letters of NaN and Infinity) the read
    returns the rendering, a string. *)
Theorem number_read_back `{rt : JsRuntime}
    (serialization : Serialization) (key : string) (x : JsNumber) (w : World) :
  serialization !! key ≫= serialize = None ->
  serialization !! key ≫= deserialize = None ->
  outcome (TypedStorage.setItem serialization key (JNumber x) w) = Normal tt ->
  let read :=
    outcome (TypedStorage.getItem serialization key
               (after (TypedStorage.setItem serialization key (JNumber x) w))) in
  (all_numeric (Number_toString x) ->
   Number_of_string (Number_toString x) = x ->
   read = Normal (JNumber x))
  /\ (~ all_numeric (Number_toString x) ->
      starts_structured (Number_toString x) = false ->
      read = Normal (JString (Number_toString x))).
Proof.
  intros Hser Hdes Hok. cbv zeta.
  destruct (read_written serialization key (JNumber x) w Hok)
    as (text & Hser' & Hraw).
  rewrite serialized_default in Hser' by done. injection Hser' as <-.
  cbn [DOMString] in Hraw. rewrite (getItem_parse _ _ _ _ Hdes Hraw). split.
  - intros Hnum Hback.
    rewrite parse_numeric by (by try apply all_numeric_not_structured).
    rewrite Hback.
    destruct (String_includes (Number_toString x) "e") eqn:He; [|done].
    by apply includes_e_not_numeric in He.
  - intros Hnot Hs. by rewrite parse_text.
Qed.

Lemma all_numeric_cons (c : ascii) (rest : string) :
  all_numeric (String c rest) <-> c ∈ numeric_chars /\ all_numeric rest.
Proof. unfold all_numeric; cbn. by rewrite Forall_cons. Qed.

Lemma all_numeric_string_of_uint (d : Decimal.uint) :
  all_numeric (NilZero.string_of_uint d).
Proof.
  destruct d as [|d|d|d|d|d|d|d|d|d|d]; cbn;
    [by apply scan_all_numeric|..];
    (apply all_numeric_cons; split; [by apply Set_has_numerics|]);
    induction d as [|d IH|d IH|d IH|d IH|d IH|d IH|d IH|d IH|d IH|d IH]; cbn;
    try (by apply scan_all_numeric);
    (apply all_numeric_cons; split; [by apply Set_has_numerics|done]).
Qed.

Lemma all_numeric_BigInt_toString (z : Z) : all_numeric (BigInt_toString z).
Proof.
  unfold BigInt_toString, NilZero.string_of_int.
  destruct (Z.to_int z) as [d|d].
  - apply all_numeric_string_of_uint.
  - apply all_numeric_cons. split; [by apply Set_has_numerics|].
    apply all_numeric_string_of_uint.
Qed.

Lemma NoDup_Set_add (set : list string) (x : string) :
  NoDup set -> NoDup (Set_add set x).
Proof.
  intros Hset. unfold Set_add, Set_has. case_bool_decide as Hin; [done|].
  apply NoDup_app. split; [done|]. split; [|apply NoDup_singleton].
  intros y Hy Hx. apply list_elem_of_singleton in Hx as ->. done.
Qed.

(** X16.  A BigInt written on a key without override is stored as its
    decimal digits, and these are read back by numeric inference: the read
    returns a Number - not the BigInt - unless that Number is rendered with
    an exponent, in which case it returns what [BigInt] gives for the
    digits.  It never returns the text. *)
Theorem bigint_read_back `{rt : JsRuntime}
    (serialization : Serialization) (key : string) (z : Z) (w : World) :
  serialization !! key ≫= serialize = None ->
  serialization !! key ≫= deserialize = None ->
  outcome (TypedStorage.setItem serialization key (JBigInt z) w) = Normal tt ->
  let digits := BigInt_toString z in
  outcome (TypedStorage.getItem serialization key
             (after (TypedStorage.setItem serialization key (JBigInt z) w)))
  = if String_includes (Number_toString (Number_of_string digits)) "e"
    then JBigInt <$> BigInt_of_string digits
    else Normal (JNumber (Number_of_string digits)).
Proof.
  intros Hser Hdes Hok. cbv zeta.
  destruct (read_written serialization key (JBigInt z) w Hok)
    as (text & Hser' & Hraw).
  rewrite serialized_default in Hser' by done. injection Hser' as <-.
  cbn [DOMString] in Hraw. rewrite (getItem_parse _ _ _ _ Hdes Hraw).
  pose proof (all_numeric_BigInt_toString z) as Hnum.
  rewrite parse_numeric by (by try apply all_numeric_not_structured).
  by destruct (String_includes _ _).
Qed.

(** X17.  On a key without override, whenever the text that default
    serialization gives for a value begins with a brace or a bracket, a
    write that succeeded followed by a read returns [JSON.parse] of that
    text - be it the value written or not - and the text itself if
    [JSON.parse] rejects it.  So a string that is JSON text of an array or
    of an object is read back as the parsed value, not as the string, and an
    array or an object whose [JSON.stringify] text begins so is read back as
    what that text parses to. *)
Theorem structured_text_read_back `{rt : JsRuntime}
    (serialization : Serialization) (key : string) (value : JsValue)
    (text : string) (w : World) :
  serialization !! key ≫= serialize = None ->
  serialization !! key ≫= deserialize = None ->
  outcome (TypedStorage.setItem serialization key value w) = Normal tt ->
  TypedStorage.toStorageString value = Normal (Some text) ->
  starts_structured text = true ->
  outcome (TypedStorage.getItem serialization key
             (after (TypedStorage.setItem serialization key value w)))
  = match JSON_parse text with
    | Normal parsed => Normal parsed
    | Throw _ => Normal (JString text)
    end.
Proof.
  intros Hser Hdes Hok Htext Hs.
  destruct (read_written serialization key value w Hok) as (text' & Hser' & Hraw).
  rewrite serialized_default, Htext in Hser' by done. injection Hser' as <-.
  cbn [DOMString] in Hraw.
  rewrite (getItem_parse _ _ _ _ Hdes Hraw), parse_structured by done.
  by destruct (JSON_parse text).
Qed.

(** X18.  With the built-ins of ECMA-262, [null] written on a key without
    override is stored as the text "null" and read back as that string -
    where a key that holds nothing reads [null]. *)
Theorem null_read_back_as_text
    (serialization : Serialization) (key : string) (w : World) :
  serialization !! key ≫= serialize = None ->
  serialization !! key ≫= deserialize = None ->
  outcome (TypedStorage.setItem (rt := ecma) serialization key JNull w) = Normal tt ->
  let w' := after (TypedStorage.setItem (rt := ecma) serialization key JNull w) in
  Storage_getItem (storage w') key = Some "null"
  /\ outcome (TypedStorage.getItem (rt := ecma) serialization key w')
     = Normal (JString "null").
Proof.
  intros Hser Hdes Hok. cbv zeta.
  destruct (read_written (rt := ecma) serialization key JNull w Hok)
    as (text & Hser' & Hraw).
  rewrite serialized_default in Hser' by done.
  assert (text = Some "null") as -> by (vm_compute in Hser'; congruence).
  cbn [DOMString] in Hraw. split; [done|].
  rewrite (getItem_parse (rt := ecma) _ _ _ _ Hdes Hraw).
  rewrite parse_text; [done|done|]. by apply scan_not_numeric.
Qed.

(** X19.  [effectedKeys] is a set: if no key is in it twice, none is after
    any run of calls nor after the microtasks of the turn, so the callback
    of [clear] goes through each key once. *)
Theorem effectedKeys_no_duplicates `{rt : JsRuntime}
    (serialization : Serialization) (calls : list Call) (w : World) :
  NoDup (effectedKeys w) ->
  NoDup (effectedKeys (run_calls serialization calls w))
  /\ NoDup (effectedKeys (turn serialization calls w)).
Proof.
  intros Hset.
  assert (Hrun : NoDup (effectedKeys (run_calls serialization calls w))).
  { revert w Hset. induction calls as [|call calls IH]; intros w Hset; [done|].
    cbn [run_calls]. apply IH.
    destruct call as [key value|key|key| |key cb|key id]; cbn [perform].
    - destruct (LiveStorage_setItem_frame serialization key value w)
        as (_ & -> & _). by apply NoDup_Set_add.
    - unfold mbind, M_bind, LiveStorage.getItem.
      destruct (getItem_frame serialization key w) as (_ & _ & Hk & _).
      destruct (TypedStorage.getItem serialization key w) as [[v|e] w'];
        cbn in *; by rewrite Hk.
    - rewrite LiveStorage_removeItem_run. cbn. by apply NoDup_filter.
    - rewrite LiveStorage_clear_run. cbn. apply NoDup_nil_2.
    - done.
    - done. }
  split; [done|].
  by destruct (turn_notifies serialization calls w) as (_ & _ & _ & _ & -> & _).
Qed.

(** ** The further properties evaluated *)

Lemma removeItem_notifies_null_witness :
  let w := subscribed unlimited "x" in
  Storage_getItem (storage w) "x" = None
  /\ deliveries (turn (rt := ecma) defaults [RemoveItem "x"] w)
     = [ {| receiver := "render"; payload := JNull |} ].
Proof.
  destruct (removeItem_notifies_null (rt := ecma) defaults "x"
              (subscribed unlimited "x") eq_refl) as (_ & _ & _ & _ & Hturn).
  cbv zeta. split; [reflexivity|]. rewrite Hturn. by vm_compute.
Defined.

Lemma late_subscriber_is_notified_witness :
  deliveries (turn (rt := ecma) defaults [SetItem "x" one; On "x" "late"]
                (subscribed unlimited "x"))
  = [ {| receiver := "render"; payload := one |};
      {| receiver := "late"; payload := one |} ].
Proof.
  rewrite (late_subscriber_is_notified (rt := ecma) defaults "x" one "late"
             (subscribed unlimited "x") eq_refl).
  by vm_compute.
Defined.

Lemma unsubscribed_before_checkpoint_witness :
  outcome (LiveStorage.on "x" "second" (subscribed unlimited "x")) = Normal "1"
  /\ deliveries (turn (rt := ecma) defaults
                   [On "x" "second"; SetItem "x" one; Off "x" "1"]
                   (subscribed unlimited "x"))
     = [ {| receiver := "render"; payload := one |} ].
Proof.
  split; [reflexivity|].
  rewrite (unsubscribed_before_checkpoint (rt := ecma) defaults "x" one "second" "1"
             (subscribed unlimited "x") eq_refl eq_refl).
  - by vm_compute.
  - intros l Hl.
    change (listeners_of (Emitter (subscribed unlimited "x")) "x")
      with [("0", "render") : string * Callback] in Hl.
    apply list_elem_of_singleton in Hl as ->. discriminate.
Defined.

Lemma stored_keys_are_tracked_witness :
  stored_tracked
    (turn (rt := ecma) defaults [SetItem "a" one; SetItem "b" two; RemoveItem "a"]
       (new_World (new_Storage unlimited))).
Proof.
  apply (stored_keys_are_tracked (rt := ecma) defaults
           [SetItem "a" one; SetItem "b" two; RemoveItem "a"]
           (new_World (new_Storage unlimited))).
  intros key [raw Hraw]. discriminate.
Defined.

Lemma failed_write_stores_nothing_witness :
  let full := new_World {| items := {[ "JWT" := "abc" ]}; accepts := exhausted |} in
  outcome (LiveStorage.setItem (rt := ecma) defaults "JWT" (JString "xyz") full)
    = Throw QuotaExceededError
  /\ outcome (LiveStorage.getItem (rt := ecma) defaults "JWT"
                (after (LiveStorage.setItem (rt := ecma) defaults "JWT"
                          (JString "xyz") full)))
     = Normal (JString "abc").
Proof.
  cbv zeta. split; [reflexivity|].
  rewrite (proj2 (proj2 (failed_write_stores_nothing (rt := ecma) defaults "JWT"
                           (JString "xyz") QuotaExceededError
                           (new_World {| items := {[ "JWT" := "abc" ]};
                                         accepts := exhausted |})
                           eq_refl)) "JWT").
  by vm_compute.
Defined.

Lemma default_read_throws_only_from_BigInt_witness :
  outcome (TypedStorage.getItem (rt := ecma) defaults "userId"
             (holding "userId" "0.0000001"))
  = Throw (SyntaxError "Cannot convert 0.0000001 to a BigInt").
Proof.
  apply (proj2 (default_read_throws_only_from_BigInt (rt := ecma) defaults "userId"
                  (SyntaxError "Cannot convert 0.0000001 to a BigInt")
                  (holding "userId" "0.0000001") eq_refl)).
  exists "0.0000001". split; [reflexivity|]. split; [reflexivity|].
  split; [by apply (bool_decide_unpack _)|]. split; by vm_compute.
Defined.

Lemma read_after_write_witness :
  let w := holding "userId" "abc" in
  let w' := after (TypedStorage.setItem (rt := ecma) defaults "userId" one w) in
  TypedStorage.getItem (rt := ecma) defaults "userId" w'
  = (Normal one, w').
Proof.
  destruct (read_after_write (rt := ecma) defaults "userId" one
              (holding "userId" "abc") eq_refl) as (text & Htext & Hread).
  assert (text = Some "1") as -> by (vm_compute in Htext; congruence).
  cbv zeta in *. rewrite Hread. by vm_compute.
Defined.

Lemma other_keys_unaffected_witness :
  let w := holding "JWT" "abc" in
  outcome (LiveStorage.getItem (rt := ecma) defaults "JWT"
             (after (LiveStorage.setItem (rt := ecma) defaults "userId" one w)))
  = Normal (JString "abc").
Proof.
  cbv zeta.
  rewrite (proj1 (other_keys_unaffected (rt := ecma) defaults "userId" "JWT" one
                    (holding "JWT" "abc") ltac:(discriminate))).
  by vm_compute.
Defined.

Lemma override_round_trip_witness :
  let w := new_World (new_Storage unlimited) in
  outcome (TypedStorage.getItem (rt := ecma) float_as_text "floatValue"
             (after (TypedStorage.setItem (rt := ecma) float_as_text "floatValue"
                       (JString "kept") w)))
  = Normal (JString "kept").
Proof.
  apply (override_round_trip (rt := ecma) float_as_text "floatValue" (JString "kept")
           (fun value => Normal "kept") (fun raw => Normal (JString raw))
           (new_World (new_Storage unlimited)) eq_refl eq_refl).
  - intros text [= <-]. reflexivity.
  - reflexivity.
Defined.

Lemma rendered_value_read_as_text_witness :
  let w := new_World (new_Storage unlimited) in
  outcome (TypedStorage.getItem (rt := ecma) defaults "flag"
             (after (TypedStorage.setItem (rt := ecma) defaults "flag"
                       (JBoolean true) w)))
  = Normal (JString "true").
Proof.
  apply (proj1 (proj2 (rendered_value_read_as_text (rt := ecma) defaults "flag"
                         (new_World (new_Storage unlimited)) eq_refl eq_refl))
           true).
  reflexivity.
Defined.

Lemma number_read_back_witness :
  let w := new_World (new_Storage unlimited) in
  let large := Ecma.decimal_to_number false 1 21 in
  outcome (TypedStorage.getItem (rt := ecma) defaults "userId"
             (after (TypedStorage.setItem (rt := ecma) defaults "userId" one w)))
  = Normal one
  /\ outcome (TypedStorage.getItem (rt := ecma) defaults "userId"
                (after (TypedStorage.setItem (rt := ecma) defaults "userId"
                          (JNumber large) w)))
     = Normal (JString "1e+21").
Proof.
  cbv zeta. split.
  - assert (Hwritten : outcome (TypedStorage.setItem (rt := ecma) defaults "userId"
                                  one (new_World (new_Storage unlimited)))
                       = Normal tt) by (by vm_compute).
    apply (number_read_back (rt := ecma) defaults "userId" (number_of_Z 1)
             (new_World (new_Storage unlimited)) eq_refl eq_refl Hwritten).
    + apply scan_all_numeric. by vm_compute.
    + by vm_compute.
  - assert (Hwritten : outcome (TypedStorage.setItem (rt := ecma) defaults "userId"
                                  (JNumber (Ecma.decimal_to_number false 1 21))
                                  (new_World (new_Storage unlimited)))
                       = Normal tt) by (by vm_compute).
    rewrite (proj2 (number_read_back (rt := ecma) defaults "userId"
                      (Ecma.decimal_to_number false 1 21)
                      (new_World (new_Storage unlimited)) eq_refl eq_refl Hwritten)).
    + by vm_compute.
    + apply scan_not_numeric. by vm_compute.
    + by vm_compute.
Defined.

Lemma bigint_read_back_witness :
  let w := new_World (new_Storage unlimited) in
  outcome (TypedStorage.getItem (rt := ecma) defaults "userId"
             (after (TypedStorage.setItem (rt := ecma) defaults "userId"
                       (JBigInt 5) w)))
  = Normal (JNumber (number_of_Z 5))
  /\ outcome (TypedStorage.getItem (rt := ecma) defaults "userId"
                (after (TypedStorage.setItem (rt := ecma) defaults "userId"
                          (JBigInt 1000000000000000000000) w)))
     = Normal (JBigInt 1000000000000000000000).
Proof.
  cbv zeta. split.
  - rewrite (bigint_read_back (rt := ecma) defaults "userId" 5
               (new_World (new_Storage unlimited)) eq_refl eq_refl
               ltac:(by vm_compute)).
    by vm_compute.
  - rewrite (bigint_read_back (rt := ecma) defaults "userId" 1000000000000000000000
               (new_World (new_Storage unlimited)) eq_refl eq_refl
               ltac:(by vm_compute)).
    by vm_compute.
Defined.

Lemma structured_text_read_back_witness :
  let w := new_World (new_Storage unlimited) in
  outcome (TypedStorage.getItem (rt := ecma) defaults "list"
             (after (TypedStorage.setItem (rt := ecma) defaults "list"
                       (JArray [JUndefined; one]) w)))
  = Normal (JArray [JNull; one])
  /\ outcome (TypedStorage.getItem (rt := ecma) defaults "list"
                (after (TypedStorage.setItem (rt := ecma) defaults "list"
                          (JString "[1,2]") w)))
     = Normal (JArray [one; two]).
Proof.
  cbv zeta. split.
  - assert (Hwritten : outcome (TypedStorage.setItem (rt := ecma) defaults "list"
                                  (JArray [JUndefined; one])
                                  (new_World (new_Storage unlimited)))
                       = Normal tt) by (by vm_compute).
    assert (Htext : TypedStorage.toStorageString (rt := ecma)
                      (JArray [JUndefined; one])
                    = Normal (Some "[null,1]")) by (by vm_compute).
    rewrite (structured_text_read_back (rt := ecma) defaults "list"
               (JArray [JUndefined; one]) "[null,1]"
               (new_World (new_Storage unlimited)) eq_refl eq_refl Hwritten
               Htext eq_refl).
    by vm_compute.
  - assert (Hwritten : outcome (TypedStorage.setItem (rt := ecma) defaults "list"
                                  (JString "[1,2]")
                                  (new_World (new_Storage unlimited)))
                       = Normal tt) by (by vm_compute).
    rewrite (structured_text_read_back (rt := ecma) defaults "list"
               (JString "[1,2]") "[1,2]"
               (new_World (new_Storage unlimited)) eq_refl eq_refl Hwritten
               eq_refl eq_refl).
    by vm_compute.
Defined.

Lemma null_read_back_as_text_witness :
  let w := new_World (new_Storage unlimited) in
  TypedStorage.getItem (rt := ecma) defaults "JWT" w = (Normal JNull, w)
  /\ outcome (TypedStorage.getItem (rt := ecma) defaults "JWT"
                (after (TypedStorage.setItem (rt := ecma) defaults "JWT" JNull w)))
     = Normal (JString "null").
Proof.
  cbv zeta. split; [reflexivity|].
  apply (null_read_back_as_text defaults "JWT" (new_World (new_Storage unlimited))
           eq_refl eq_refl).
  by vm_compute.
Defined.

Lemma effectedKeys_no_duplicates_witness :
  effectedKeys
    (turn (rt := ecma) defaults [SetItem "a" one; SetItem "a" two; SetItem "b" two]
       (new_World (new_Storage unlimited)))
  = ["a"; "b"]
  /\ NoDup (effectedKeys
              (turn (rt := ecma) defaults
                 [SetItem "a" one; SetItem "a" two; SetItem "b" two]
                 (new_World (new_Storage unlimited)))).
Proof.
  split; [by vm_compute|].
  apply (effectedKeys_no_duplicates (rt := ecma) defaults
           [SetItem "a" one; SetItem "a" two; SetItem "b" two]
           (new_World (new_Storage unlimited))).
  apply NoDup_nil_2.
Defined.
